(** * SubgraphManager: deployment orchestration with graft auto-resolution

    A shallow embedding of
    [packages/indexer-common/src/indexer-management/subgraphs.ts]
    (class [SubgraphManager]) and the properties of its [ensure] workflow.

    The asynchronous methods are modelled in a state-and-exception monad:
    the state holds the trace of observable events (log lines, JSON-RPC
    requests, upserts of indexing rules, entries into [ensure]), the
    indexing-rule table, the object
    allocator and the number of [Math.random()] draws made so far.  A
    thrown JavaScript value is an exception of the monad; [try/catch] is
    the monad's handler.  The mutual recursion between [ensure] and
    [deploy] is cut by a fuel argument. *)

From Stdlib Require Import String Ascii List ZArith QArith Qround Bool Lia.
Import ListNotations.

Local Open Scope string_scope.
Local Open Scope Z_scope.

(** ** JavaScript string primitives used by the source *)

Module JsString.

(** [s.indexOf(needle)], scanning from position [i]; -1 when absent. *)
Fixpoint indexOf_from (needle s : string) (i : Z) : Z :=
  if prefix needle s then i
  else match s with
       | EmptyString => -1
       | String _ s' => indexOf_from needle s' (i + 1)
       end.

Definition indexOf (s needle : string) : Z := indexOf_from needle s 0.

(** [s.includes(needle)] *)
Definition includes (s needle : string) : bool := 0 <=? indexOf s needle.

(** An index argument of [substring] is clamped into [0, s.length]. *)
Definition clamp (len x : Z) : Z := Z.max 0 (Z.min x len).

(** [s.substring(a, b)]: both indices clamped, swapped when [a > b]. *)
Definition substring (s : string) (a b : Z) : string :=
  let len := Z.of_nat (String.length s) in
  let a' := clamp len a in
  let b' := clamp len b in
  let lo := Z.min a' b' in
  let hi := Z.max a' b' in
  String.substring (Z.to_nat lo) (Z.to_nat (hi - lo)) s.

End JsString.

(** ** The class [SubgraphDeploymentID] of [@graphprotocol/common-ts]

    The class is no part of this repository; the worlds below use it as
    the package has it.  The constructor accepts the base58 form of a
    deployment hash (46 characters, "Qm" first) and the bytes32 form
    ("0x" and 64 hex digits), and keeps the 32 bytes as [value]: for the
    base58 form, the decoded bytes without the first two.  The getter
    [ipfsHash] encodes the bytes 0x12 0x20 followed by [value].  Byte
    strings are written as the numbers they spell, most significant
    byte first; every 46-character string of the alphabet that starts
    with "Qm" decodes to 34 bytes, so that dropping the first two bytes
    is the remainder modulo 2^256. *)

Module CommonTs.

(** The alphabet of [bs58]. *)
Definition ALPHABET : string :=
  "123456789ABCDEFGHJKLMNPQRSTUVWXYZabcdefghijkmnopqrstuvwxyz".

(** The position of a character in a string, counted from [i]. *)
Fixpoint position_from (c : ascii) (s : string) (i : Z) : option Z :=
  match s with
  | EmptyString => None
  | String a s' => if Ascii.eqb a c then Some i else position_from c s' (i + 1)
  end.

(** The value of a character of the alphabet. *)
Definition digit (c : ascii) : option Z := position_from c ALPHABET 0.

(** The character of a value below 58. *)
Definition symbol (d : Z) : ascii :=
  match String.get (Z.to_nat d) ALPHABET with
  | Some c => c
  | None => "1"%char
  end.

(** [base58.decode(s)], the bytes read as one big-endian number; [None]
    when a character is outside the alphabet (the library throws). *)
Fixpoint decode_from (acc : Z) (s : string) : option Z :=
  match s with
  | EmptyString => Some acc
  | String c s' =>
      match digit c with
      | Some d => decode_from (acc * 58 + d) s'
      | None => None
      end
  end.

Definition decode (s : string) : option Z := decode_from 0 s.

(** [base58.encode(bytes)] for bytes without a leading zero, given as
    the number they spell: the digits of the number in base 58, the
    least significant produced first. *)
Fixpoint encode_onto (fuel : nat) (n : Z) (acc : string) : string :=
  match fuel with
  | O => acc
  | S fuel' =>
      if n =? 0 then acc
      else encode_onto fuel' (n / 58) (String (symbol (n mod 58)) acc)
  end.

Definition encode (n : Z) : string := encode_onto (S (Z.to_nat (Z.log2 n))) n "".

Fixpoint allChars (p : ascii -> bool) (s : string) : bool :=
  match s with
  | EmptyString => true
  | String c s' => p c && allChars p s'
  end.

Definition isBase58 (c : ascii) : bool :=
  match digit c with Some _ => true | None => false end.

(** The value of a lower-case hex digit, and of a string of them. *)
Definition hexDigit (c : ascii) : option Z := position_from c "0123456789abcdef" 0.

Definition isLowerHex (c : ascii) : bool :=
  match hexDigit c with Some _ => true | None => false end.

Fixpoint hexValue_from (acc : Z) (s : string) : Z :=
  match s with
  | EmptyString => acc
  | String c s' =>
      hexValue_from (acc * 16 + match hexDigit c with Some d => d | None => 0 end) s'
  end.

(** [/^Qm[1-9a-km-zA-HJ-NP-Z]{44}$/] *)
Definition multiHashCheck (id : string) : bool :=
  (String.length id =? 46)%nat && prefix "Qm" id && allChars isBase58 id.

(** [/^0x[0-9a-f]{64}$/] *)
Definition bytes32Check (id : string) : bool :=
  (String.length id =? 66)%nat && prefix "0x" id
  && allChars isLowerHex (String.substring 2 64 id).

(** The strings the constructor accepts. *)
Definition accepts (id : string) : bool := multiHashCheck id || bytes32Check id.

(** The field [value] of the object built from an accepted [id], as the
    number its 32 bytes spell. *)
Definition value (id : string) : Z :=
  if multiHashCheck id then
    match decode id with
    | Some n => n mod 2 ^ 256
    | None => 0
    end
  else hexValue_from 0 (String.substring 2 64 id).

(** The getter [ipfsHash] on an object whose [value] is [v]. *)
Definition ipfsHash_of_value (v : Z) : string := encode (4640 * 2 ^ 256 + v).

(** The [ipfsHash] of the object built from an accepted [id]. *)
Definition ipfsHashOf (id : string) : string := ipfsHash_of_value (value id).

(** The string decodes to the bytes 0x12 0x20 followed by 32 more: it is
    the base58 form of a deployment hash. *)
Definition canonical (id : string) : bool :=
  match decode id with
  | Some n => n / 2 ^ 256 =? 4640
  | None => false
  end.

End CommonTs.

(** ** Data model *)

(** The error categories of [IndexerErrorCode] that the class uses. *)
Inductive IndexerErrorCode : Type := IE020 | IE026 | IE027 | IE028 | IE069.

(** A thrown value: a plain error object carrying a [message] (a JSON-RPC
    error payload, a transport rejection, the [p-timeout] rejection, the
    error of the identity constructor), or an [IndexerError]. *)
Inductive JsError : Type :=
| Err (message : string)
| IndexerError (code : IndexerErrorCode) (cause : JsError).

(** Modelled from the spec: [indexerError], imported from the errors
    module of indexer-common, whose source is missing.  It builds an
    error of the given category that carries the original underlying
    cause. *)
Definition indexerError (code : IndexerErrorCode) (cause : JsError) : JsError :=
  IndexerError code cause.

(** The outermost category of a thrown value, if it has one. *)
Definition category (e : JsError) : option IndexerErrorCode :=
  match e with
  | Err _ => None
  | IndexerError c _ => Some c
  end.

(** Does category [c] occur anywhere in the cause chain of [e]? *)
Fixpoint mentions (c : IndexerErrorCode) (e : JsError) : bool :=
  match e with
  | Err _ => false
  | IndexerError c' cause =>
      match c, c' with
      | IE020, IE020 | IE026, IE026 | IE027, IE027
      | IE028, IE028 | IE069, IE069 => true
      | _, _ => mentions c cause
      end
  end.

(** A [SubgraphDeploymentID] object.  [oid] is the identity of the object
    itself: [Array.prototype.includes] compares objects by reference, so
    two objects built from the same hash are still different values.
    [ipfsHash] is what the getter of that name returns on the object:
    the base58 form of the 32 bytes the object holds. *)
Record SubgraphDeploymentID : Type := mkSubgraphDeploymentID {
  oid : nat;
  ipfsHash : string
}.

Inductive SubgraphIdentifierType : Type := DEPLOYMENT | SUBGRAPH | GROUP.
Inductive IndexingDecisionBasis : Type := RULES | NEVER | ALWAYS | OFFCHAIN.

(** The fields of an indexing rule that the class reads and writes. *)
Record IndexingRule : Type := mkIndexingRule {
  identifier : string;
  identifierType : SubgraphIdentifierType;
  decisionBasis : IndexingDecisionBasis
}.

(** The three JSON-RPC methods.  [node_id] is [None] when the JavaScript
    value is [undefined]. *)
Inductive Request : Type :=
| subgraph_create (name : string)
| subgraph_deploy (name ipfs_hash : string) (node_id : option string)
| subgraph_reassign (node_id : option string) (ipfs_hash : string).

(** What awaiting a request gives: the promise rejects (transport failure,
    or the two-minute timeout of [deploy]), or a response arrives whose
    [error] field is either set, with its message, or not. *)
Inductive RpcOutcome : Type :=
| Rejected (message : string)
| Responded (error : option string).

Inductive Level : Type := INFO | DEBUG | WARN | ERROR.

Inductive Event : Type :=
| EvLog (l : Level) (msg : string)
| EvRequest (r : Request)
| EvUpsert (rule : IndexingRule)
| EvEnsure (name hash : string) (indexNode : option string) (depth : Z).

(** The instance fields of [SubgraphManager] (the RPC client is the
    [remote] parameter below). *)
Record SubgraphManager : Type := mkSubgraphManager {
  indexNodeIDs : list string;
  autoGraftResolverDepth : Z
}.

(** The constructor: [autoGraftResolverDepth ?? 0]. *)
Definition new_SubgraphManager (endpoint : string) (indexNodeIDs : list string)
    (autoGraftResolverDepth : option Z) : SubgraphManager :=
  mkSubgraphManager indexNodeIDs
    (match autoGraftResolverDepth with Some d => d | None => 0 end).

(** ** The monad *)

Record State : Type := mkState {
  trace : list Event;          (* newest event first *)
  rules : list IndexingRule;   (* the IndexingRule table, oldest row first *)
  nextOid : nat;               (* allocator of object identities *)
  draws : nat                  (* number of Math.random() calls so far *)
}.

Inductive Outcome (A : Type) : Type :=
| Ret (a : A)
| Throw (e : JsError)
| OutOfFuel.
Arguments Ret {A} a.
Arguments Throw {A} e.
Arguments OutOfFuel {A}.

Definition M (A : Type) : Type := State -> Outcome A * State.

Definition ret {A} (a : A) : M A := fun st => (Ret a, st).
Definition throw {A} (e : JsError) : M A := fun st => (Throw e, st).
Definition out_of_fuel {A} : M A := fun st => (OutOfFuel, st).

Definition bind {A B} (m : M A) (k : A -> M B) : M B :=
  fun st =>
    match m st with
    | (Ret a, st') => k a st'
    | (Throw e, st') => (Throw e, st')
    | (OutOfFuel, st') => (OutOfFuel, st')
    end.

(** [try { body } catch (error) { handler }]; running out of fuel is not
    an exception and is not caught. *)
Definition try_catch {A} (body : M A) (handler : JsError -> M A) : M A :=
  fun st =>
    match body st with
    | (Throw e, st') => handler e st'
    | r => r
    end.

Declare Scope m_scope.
Delimit Scope m_scope with m.
Notation "x <- m ;; k" := (bind m (fun x => k))
  (at level 61, m at next level, right associativity) : m_scope.
Notation "m ;; k" := (bind m (fun _ => k))
  (at level 61, right associativity) : m_scope.
Local Open Scope m_scope.

Definition emit (e : Event) : M unit :=
  fun st => (Ret tt, mkState (e :: trace st) (rules st) (nextOid st) (draws st)).

Definition logger (l : Level) (msg : string) : M unit := emit (EvLog l msg).

Fixpoint mapM {A B} (f : A -> M B) (l : list A) : M (list B) :=
  match l with
  | [] => ret []
  | x :: l' => y <- f x ;; ys <- mapM f l' ;; ret (y :: ys)
  end.

(** The requests of a trace, newest first. *)
Fixpoint requests_of (t : list Event) : list Request :=
  match t with
  | [] => []
  | EvRequest r :: t' => r :: requests_of t'
  | _ :: t' => requests_of t'
  end.

(** The rules handed to [upsertIndexingRule] in a trace, newest first. *)
Fixpoint upserts_of (t : list Event) : list IndexingRule :=
  match t with
  | [] => []
  | EvUpsert r :: t' => r :: upserts_of t'
  | _ :: t' => upserts_of t'
  end.

(** The entries into [ensure] of a trace, newest first. *)
Fixpoint ensure_calls (t : list Event) : list (string * string * option string * Z) :=
  match t with
  | [] => []
  | EvEnsure n h i d :: t' => (n, h, i, d) :: ensure_calls t'
  | _ :: t' => ensure_calls t'
  end.

(** ** The class [SubgraphManager] *)

Section Manager.

(** Which strings the constructor of [SubgraphDeploymentID] (package
    [@graphprotocol/common-ts]) accepts; on any other string it throws.
    The class as the package has it is [CommonTs.accepts] with
    [CommonTs.ipfsHashOf]. *)
Variable validDeploymentID : string -> bool.

(** What the getter [ipfsHash] returns on the object the constructor
    builds from an accepted string. *)
Variable ipfsHashOfDeploymentID : string -> string.

(** The message table of the error categories (errors module of
    indexer-common); no method inspects these messages. *)
Variable INDEXER_ERROR_MESSAGES : IndexerErrorCode -> string.

(** The node-management endpoint: what it answers to a request, given
    the requests it has received before (newest first). *)
Variable remote : list Request -> Request -> RpcOutcome.

(** The values of successive [Math.random()] calls, as rationals. *)
Variable random : nat -> Q.

Definition message (e : JsError) : string :=
  match e with
  | Err m => m
  | IndexerError c _ => INDEXER_ERROR_MESSAGES c
  end.

(** [new SubgraphDeploymentID(id)]: a fresh object, or the constructor's
    error. *)
Definition new_SubgraphDeploymentID (id : string) : M SubgraphDeploymentID :=
  fun st =>
    if validDeploymentID id then
      (Ret (mkSubgraphDeploymentID (nextOid st) (ipfsHashOfDeploymentID id)),
       mkState (trace st) (rules st) (S (nextOid st)) (draws st))
    else (Throw (Err ("Invalid subgraph deployment ID: " ++ id)), st).

(** [await this.client.request(method, params)] *)
Definition request (r : Request) : M (option string) :=
  fun st =>
    let st' := mkState (EvRequest r :: trace st) (rules st) (nextOid st) (draws st) in
    match remote (requests_of (trace st)) r with
    | Rejected m => (Throw (Err m), st')
    | Responded e => (Ret e, st')
    end.

Definition Math_random : M Q :=
  fun st => (Ret (random (draws st)),
             mkState (trace st) (rules st) (nextOid st) (S (draws st))).

(** [arr[i]] for an integral [i]: [undefined] out of range. *)
Definition array_get {A} (arr : list A) (i : Z) : option A :=
  if i <? 0 then None else nth_error arr (Z.to_nat i).

(** [arr.includes(x)] on strings *)
Definition array_includes (arr : list string) (x : string) : bool :=
  existsb (String.eqb x) arr.

(** [arr.includes(x)] on objects: same object, not same contents. *)
Definition array_includes_object (arr : list SubgraphDeploymentID)
    (x : SubgraphDeploymentID) : bool :=
  existsb (fun y => Nat.eqb (oid y) (oid x)) arr.

(** Modelled from the spec: [fetchIndexingRules(models, false)],
    imported from the indexing-rules module of indexer-common, whose
    source is missing.  The policy store's [listAll]: every record of
    the table, unmerged.  The store is taken not to fail. *)
Definition fetchIndexingRules : M (list IndexingRule) :=
  fun st => (Ret (rules st), st).

(** Modelled from the spec: [upsertIndexingRule], imported from the
    indexing-rules module of indexer-common, whose source is missing.
    The policy store's [upsert(record)], keyed by identifier: the
    record with that identifier takes the fields given, and a table
    without one gains the record.  The store is taken not to fail. *)
Fixpoint upsert (r : IndexingRule) (table : list IndexingRule) : list IndexingRule :=
  match table with
  | [] => [r]
  | r' :: table' =>
      if String.eqb (identifier r') (identifier r) then r :: table'
      else r' :: upsert r table'
  end.

Definition upsertIndexingRule (r : IndexingRule) : M unit :=
  fun st => (Ret tt,
             mkState (EvUpsert r :: trace st) (upsert r (rules st)) (nextOid st) (draws st)).

Definition graftSignature : string :=
  "subgraph validation error: [the graft base is invalid: deployment not found".

(** The token [graftBase] cuts out of the message. *)
Definition graftBaseQm (msg : string) : string :=
  JsString.substring msg (JsString.indexOf msg "Qm") (JsString.indexOf msg "Qm" + 46).

(** [graftBase(logger, err, depth)]; [None] is [undefined]. *)
Definition graftBase (this : SubgraphManager) (err : string) (depth : Z)
  : M (option SubgraphDeploymentID) :=
  if JsString.includes err graftSignature then
    if depth >=? autoGraftResolverDepth this then
      logger WARN "Grafting depth for deployment reached auto-graft-resolver-depth limit" ;;
      ret None
    else
      d <- new_SubgraphDeploymentID (graftBaseQm err) ;;
      ret (Some d)
  else ret None.

(** [createSubgraph(logger, name)] *)
Definition createSubgraph (name : string) : M unit :=
  try_catch
    (logger INFO "Create subgraph name" ;;
     response <- request (subgraph_create name) ;;
     match response with
     | Some e => throw (Err e)
     | None => logger INFO "Successfully created subgraph name"
     end)
    (fun error =>
       (if JsString.includes (message error) "already exists"
        then logger DEBUG "Subgraph name already exists"
        else ret tt) ;;
       throw error).

(** The block that opens both [deploy] and [reassign]: the choice of
    [targetNode].  An [indexNode] that is [undefined] or the empty
    string is falsy. *)
Definition selectTargetNode (this : SubgraphManager) (indexNode : option string)
  : M (option string) :=
  match indexNode with
  | Some (String c n) =>
      let targetNode := String c n in
      (if negb (array_includes (indexNodeIDs this) targetNode)
       then logger WARN "Specified deployment target node not present in indexNodeIDs supplied at startup, proceeding with deploy to target node anyway."
       else ret tt) ;;
      ret (Some targetNode)
  | _ =>
      r <- Math_random ;;
      ret (array_get (indexNodeIDs this)
             (Qfloor (r * inject_Z (Z.of_nat (List.length (indexNodeIDs this))))))
  end.

(** The default rule [deploy] writes for a deployment. *)
Definition offchainIndexingRule (deployment : SubgraphDeploymentID) : IndexingRule :=
  mkIndexingRule (ipfsHash deployment) DEPLOYMENT OFFCHAIN.

(** [deploy(logger, models, name, deployment, indexNode, depth)], with
    [this.ensure] as the parameter [ensure_rec]. *)
Definition deploy
    (ensure_rec : string -> SubgraphDeploymentID -> option string -> Z -> M unit)
    (this : SubgraphManager) (name : string) (deployment : SubgraphDeploymentID)
    (indexNode : option string) (depth : Z) : M unit :=
  targetNode <- selectTargetNode this indexNode ;;
  try_catch
    (logger INFO "Deploy subgraph" ;;
     response <- request (subgraph_deploy name (ipfsHash deployment) targetNode) ;;
     match response with
     | Some response_error =>
         baseDeployment <- graftBase this response_error depth ;;
         match baseDeployment with
         | Some baseDeployment =>
             logger DEBUG "Found graft base deployment, ensure deployment and a matching offchain indexing rules" ;;
             ensure_rec name baseDeployment targetNode (depth + 1) ;;
             ensure_rec name deployment targetNode depth ;;
             throw (indexerError IE069 (Err response_error))
         | None => throw (indexerError IE026 (Err response_error))
         end
     | None =>
         logger INFO "Successfully deployed subgraph" ;;
         fetched <- fetchIndexingRules ;;
         indexingRules <- mapM (fun rule => new_SubgraphDeploymentID (identifier rule)) fetched ;;
         if negb (array_includes_object indexingRules deployment)
         then upsertIndexingRule (offchainIndexingRule deployment)
         else ret tt
     end)
    (fun error =>
       let err := indexerError IE026 error in
       logger ERROR "Failed to deploy subgraph deployment" ;;
       throw err).

(** [reassign(logger, deployment, indexNode)] *)
Definition reassign (this : SubgraphManager) (deployment : SubgraphDeploymentID)
    (indexNode : option string) : M unit :=
  targetNode <- selectTargetNode this indexNode ;;
  try_catch
    (logger INFO "Reassign subgraph deployment" ;;
     response <- request (subgraph_reassign targetNode (ipfsHash deployment)) ;;
     match response with
     | Some e => throw (Err e)
     | None => ret tt
     end)
    (fun error =>
       if JsString.includes (message error) "unchanged" then
         logger DEBUG "Subgraph deployment assignment unchanged" ;;
         throw error
       else
         let err := indexerError IE028 error in
         logger ERROR "Failed to reassign subgraph deployment" ;;
         throw err).

(** [ensure(logger, models, name, deployment, indexNode, depth?)].  The
    [EvEnsure] event marks the entry into the method; [fuel] bounds the
    nesting of [ensure] inside [deploy]. *)
Fixpoint ensure (fuel : nat) (this : SubgraphManager) (name : string)
    (deployment : SubgraphDeploymentID) (indexNode : option string)
    (depth : option Z) : M unit :=
  match fuel with
  | O => out_of_fuel
  | S fuel' =>
      let depth := match depth with Some d => d | None => 0 end in
      emit (EvEnsure name (ipfsHash deployment) indexNode depth) ;;
      try_catch
        (createSubgraph name ;;
         deploy (fun n d i k => ensure fuel' this n d i (Some k))
                this name deployment indexNode depth ;;
         reassign this deployment indexNode)
        (fun error =>
           let err := indexerError IE020 error in
           logger ERROR "Failed to ensure subgraph deployment is indexing" ;;
           throw error)
  end.

(** Modelled from the spec: [models.IndexingRule.findOne({ where: {
    identifier } })], a method of the indexing-rule model, whose source
    is missing.  The policy store's [find(identifier)]: a record with
    that identifier, if the table has one.  The store is taken not to
    fail. *)
Definition findOne (id : string) : M (option IndexingRule) :=
  fun st => (Ret (find (fun r => String.eqb (identifier r) id) (rules st)), st).

(** Modelled from the spec: [models.IndexingRule.destroy({ where: {
    identifier } })], a method of the indexing-rule model, whose source
    is missing.  The policy store's [destroy(identifier)]: every record
    with that identifier leaves the table.  The store is taken not to
    fail. *)
Definition destroy (id : string) : M unit :=
  fun st => (Ret tt,
             mkState (trace st)
               (filter (fun r => negb (String.eqb (identifier r) id)) (rules st))
               (nextOid st) (draws st)).

(** [remove(logger, models, deployment)]: the catch block logs the
    IE027 error and throws nothing. *)
Definition remove (deployment : SubgraphDeploymentID) : M unit :=
  try_catch
    (logger INFO "Remove subgraph deployment" ;;
     response <- request (subgraph_reassign (Some "removed") (ipfsHash deployment)) ;;
     match response with
     | Some e => throw (Err e)
     | None =>
         logger INFO "Successfully removed subgraph deployment" ;;
         found <- findOne (ipfsHash deployment) ;;
         match found with
         | Some _ =>
             logger INFO "Remove indexing rules, so indexer-agent will not attempt to redeploy" ;;
             destroy (ipfsHash deployment) ;;
             logger INFO ("Sucessfully removed indexing rule for '" ++ ipfsHash deployment ++ "'")
         | None => ret tt
         end
     end)
    (fun error =>
       let err := indexerError IE027 error in
       logger ERROR "Failed to remove subgraph deployment").

End Manager.

Arguments message INDEXER_ERROR_MESSAGES e : assert.
Arguments request remote r _ : assert.
Arguments Math_random random _ : assert.
Arguments new_SubgraphDeploymentID validDeploymentID ipfsHashOfDeploymentID id _ : assert.
Arguments array_get {A} arr i.

(** ** Concrete worlds *)

Module Scenario.

(** An identity constructor that accepts every string and keeps it as
    the hash. *)
Definition anyString (s : string) : bool := true.
Definition asGiven (s : string) : string := s.

Definition messages (c : IndexerErrorCode) : string :=
  match c with
  | IE020 => "Failed to ensure subgraph deployment is indexing"
  | IE026 => "Failed to deploy subgraph deployment"
  | IE027 => "Failed to remove subgraph deployment"
  | IE028 => "Failed to reassign subgraph deployment"
  | IE069 => "Graft dependency resolved, retry required"
  end.

(** Two deployment hashes: each is the base58 form of 0x12 0x20 and 32
    bytes, and so the [ipfsHash] of the identity built from it. *)
Definition hashB : string := "QmUQVYfxvmyDuwkFxbQMMUNPyhRfpVvPFGfE8W36bwh8RT".
Definition hashD : string := "QmWSXahzxp1FwynHzdSPPWQS1jThrXxRHJhGAY58dyjATV".

(** The bytes32 form of [hashD]. *)
Definition bytes32D : string :=
  "0x785eebcd1d3c951862795aacb41b930b90a837f13f02d5733d5c59435e50d794".

(** A token of the Qm form that is the [ipfsHash] of no identity. *)
Definition tokenB : string := "QmBBBBBBBBBBBBBBBBBBBBBBBBBBBBBBBBBBBBBBBBBBBB".

(** The deployment handed to the top-level call,
    [new SubgraphDeploymentID(hashD)]: an object allocated before the
    call starts. *)
Definition D : SubgraphDeploymentID := mkSubgraphDeploymentID 0 hashD.

Definition graftError : string :=
  graftSignature ++ ": " ++ hashB ++ "]".

(** A graft-base failure whose message names no hash at all. *)
Definition truncatedGraftError : string := graftSignature ++ "]".

(** A graft-base failure whose hash is cut short. *)
Definition shortGraftError : string := graftSignature ++ ": QmBBBBBBBB".

Definition initial (table : list IndexingRule) : State := mkState [] table 1 0.

(** How often the deployment [hash] was sent to [subgraph_deploy]. *)
Fixpoint deploys_of (hash : string) (history : list Request) : nat :=
  match history with
  | [] => O
  | subgraph_deploy _ h _ :: history' =>
      if String.eqb h hash then S (deploys_of hash history') else deploys_of hash history'
  | _ :: history' => deploys_of hash history'
  end.

(** Every request succeeds. *)
Definition remote_ok (history : list Request) (r : Request) : RpcOutcome :=
  Responded None.

(** The first [n] deploys of [hashD] fail for want of the graft base
    [hashB]; every other request succeeds. *)
Definition remote_graft (n : nat) (history : list Request) (r : Request) : RpcOutcome :=
  match r with
  | subgraph_deploy _ h _ =>
      if String.eqb h hashD && (deploys_of hashD history <? n)%nat
      then Responded (Some graftError)
      else Responded None
  | _ => Responded None
  end.

(** The first deploy of [hashD] fails for want of the graft base, the
    second for another reason. *)
Definition remote_graft_then_fail (history : list Request) (r : Request) : RpcOutcome :=
  match r with
  | subgraph_deploy _ h _ =>
      if String.eqb h hashD then
        match deploys_of hashD history with
        | O => Responded (Some graftError)
        | _ => Responded (Some "deployment failed: store unavailable")
        end
      else Responded None
  | _ => Responded None
  end.

(** The name is registered already. *)
Definition remote_exists (history : list Request) (r : Request) : RpcOutcome :=
  match r with
  | subgraph_create _ => Responded (Some "subgraph name already exists: indexer-agent/D")
  | _ => Responded None
  end.

(** Every deploy fails with a graft-base message that names no hash. *)
Definition remote_truncated (history : list Request) (r : Request) : RpcOutcome :=
  match r with
  | subgraph_deploy _ _ _ => Responded (Some truncatedGraftError)
  | _ => Responded None
  end.

(** [Math.random()] returns 0, then 1/2, then 0, ... *)
Definition random_alternating (i : nat) : Q :=
  if Nat.even i then 0%Q else (1 # 2)%Q.

Definition random_zero (i : nat) : Q := 0%Q.

Definition pool : list string := ["nodeA"; "nodeB"].

(** The endpoint cannot be reached. *)
Definition remote_down (history : list Request) (r : Request) : RpcOutcome :=
  Rejected "connect ECONNREFUSED 127.0.0.1:8020".

Definition manager (autoGraftResolverDepth : option Z) : SubgraphManager :=
  new_SubgraphManager "http://127.0.0.1:8020" pool autoGraftResolverDepth.

(** A manager configured with no index nodes. *)
Definition manager_without_nodes : SubgraphManager :=
  new_SubgraphManager "http://127.0.0.1:8020" [] None.

(** The top-level call [ensure(logger, models, "n", D, undefined)]
    on a given rule table. *)
Definition run_ensure (remote : list Request -> Request -> RpcOutcome) (random : nat -> Q)
    (fuel : nat) (this : SubgraphManager) (table : list IndexingRule)
  : Outcome unit * State :=
  ensure CommonTs.accepts CommonTs.ipfsHashOf messages remote random fuel this "n" D None None
    (initial table).

(** The call [deploy(logger, models, "n", D, undefined, 0)]. *)
Definition run_deploy (remote : list Request -> Request -> RpcOutcome) (random : nat -> Q)
    (fuel : nat) (this : SubgraphManager) (table : list IndexingRule)
  : Outcome unit * State :=
  deploy CommonTs.accepts CommonTs.ipfsHashOf remote random
    (fun n d i k =>
       ensure CommonTs.accepts CommonTs.ipfsHashOf messages remote random fuel this n d i (Some k))
    this "n" D None 0 (initial table).

(** Every deploy of [hashD] fails for want of the graft base [hashB];
    every other request succeeds. *)
Definition remote_graft_forever (history : list Request) (r : Request) : RpcOutcome :=
  match r with
  | subgraph_deploy _ h _ =>
      if String.eqb h hashD then Responded (Some graftError) else Responded None
  | _ => Responded None
  end.

(** Every deploy fails for a reason that is no graft-base failure. *)
Definition remote_store_unavailable (history : list Request) (r : Request) : RpcOutcome :=
  match r with
  | subgraph_deploy _ _ _ => Responded (Some "deployment failed: store unavailable")
  | _ => Responded None
  end.

(** The deployment is assigned to the requested node already. *)
Definition remote_unchanged (history : list Request) (r : Request) : RpcOutcome :=
  match r with
  | subgraph_reassign _ _ => Responded (Some "deployment assignment unchanged")
  | _ => Responded None
  end.

(** A rule table with the global rule and a rule for [hashB]. *)
Definition table_with_global : list IndexingRule :=
  [mkIndexingRule hashB DEPLOYMENT ALWAYS; mkIndexingRule "global" GROUP RULES].

(** A rule table with rules for [hashD] and [hashB]. *)
Definition table_with_deployment : list IndexingRule :=
  [mkIndexingRule hashD DEPLOYMENT ALWAYS; mkIndexingRule hashB DEPLOYMENT NEVER].

End Scenario.

(** ** Vocabulary of the properties *)

(** The state after one more event. *)
Definition emitted (e : Event) (st : State) : State :=
  mkState (e :: trace st) (rules st) (nextOid st) (draws st).

(** The state after one more allocated object. *)
Definition allocated (st : State) : State :=
  mkState (trace st) (rules st) (S (nextOid st)) (draws st).

(** The state after one more [Math.random()] draw. *)
Definition drawn (st : State) : State :=
  mkState (trace st) (rules st) (nextOid st) (S (draws st)).

(** The state after one more log line. *)
Definition logged (l : Level) (msg : string) (st : State) : State :=
  emitted (EvLog l msg) st.

(** The state in which [deploy] awaits the answer to its request. *)
Definition deploy_requested (name : string) (deployment : SubgraphDeploymentID)
    (target : option string) (st1 : State) : State :=
  emitted (EvRequest (subgraph_deploy name (ipfsHash deployment) target))
    (logged INFO "Deploy subgraph" st1).

(** The state in which [deploy] raises from its handler. *)
Definition deploy_failed (st : State) : State :=
  logged ERROR "Failed to deploy subgraph deployment" st.

(** The state in which [deploy] enters the recursive [ensure]. *)
Definition resolving (name : string) (deployment : SubgraphDeploymentID)
    (target : option string) (st1 : State) : State :=
  logged DEBUG "Found graft base deployment, ensure deployment and a matching offchain indexing rules"
    (allocated (deploy_requested name deployment target st1)).

(** The trace of [st'] is the trace of [st] with new events in front,
    each of which satisfies [P]. *)
Definition grows_by (P : Event -> Prop) (st st' : State) : Prop :=
  exists evs, trace st' = (evs ++ trace st)%list /\ Forall P evs.

(** Every run of [m] adds only events that satisfy [P]. *)
Definition respects (P : Event -> Prop) {A} (m : M A) : Prop :=
  forall st, grows_by P st (snd (m st)).

(** The events a predicate has to admit for a method to respect it. *)
Definition admits_logs (P : Event -> Prop) : Prop := forall l msg, P (EvLog l msg).

(** The objects [deploy] builds from the fetched rules, the first of
    them with identity [n]. *)
Fixpoint fresh_objects (hashOf : string -> string) (n : nat) (rs : list IndexingRule)
  : list SubgraphDeploymentID :=
  match rs with
  | [] => []
  | r :: rs' => mkSubgraphDeploymentID n (hashOf (identifier r)) :: fresh_objects hashOf (S n) rs'
  end.



(** The event is no entry into [ensure]. *)
Definition not_ensure (e : Event) : Prop :=
  match e with
  | EvEnsure _ _ _ _ => False
  | _ => True
  end.

(** An entry into [ensure] lies at a depth between [lo] and [hi]. *)
Definition depth_within (lo hi : Z) (e : Event) : Prop :=
  match e with
  | EvEnsure _ _ _ d => lo <= d <= hi
  | _ => True
  end.

(** The event names no other subgraph name than [name]. *)
Definition uses_name (name : string) (e : Event) : Prop :=
  match e with
  | EvRequest (subgraph_create n) => n = name
  | EvRequest (subgraph_deploy n _ _) => n = name
  | EvEnsure n _ _ _ => n = name
  | _ => True
  end.

(** ** Properties *)

(** *** Strings *)

Lemma substring_middle (pre tok post : string) :
  String.substring (String.length pre) (String.length tok) (pre ++ tok ++ post) = tok.
Proof.
  induction pre as [|c pre IH]; simpl.
  - induction tok as [|c tok IH]; simpl.
    + destruct post; reflexivity.
    + now rewrite IH.
  - exact IH.
Qed.

Lemma length_append (s t : string) :
  String.length (s ++ t) = (String.length s + String.length t)%nat.
Proof. induction s as [|c s IH]; simpl; [reflexivity | now rewrite IH]. Qed.

Lemma js_substring_token (pre tok post : string) :
  JsString.substring (pre ++ tok ++ post)
    (Z.of_nat (String.length pre))
    (Z.of_nat (String.length pre) + Z.of_nat (String.length tok)) = tok.
Proof.
  unfold JsString.substring, JsString.clamp.
  rewrite !length_append.
  set (p := String.length pre). set (t := String.length tok).
  set (q := String.length post).
  replace (Z.min (Z.max 0 (Z.min (Z.of_nat p) (Z.of_nat (p + (t + q)))))
                 (Z.max 0 (Z.min (Z.of_nat p + Z.of_nat t) (Z.of_nat (p + (t + q))))))
    with (Z.of_nat p) by lia.
  replace (Z.max (Z.max 0 (Z.min (Z.of_nat p) (Z.of_nat (p + (t + q)))))
                 (Z.max 0 (Z.min (Z.of_nat p + Z.of_nat t) (Z.of_nat (p + (t + q))))))
    with (Z.of_nat p + Z.of_nat t) by lia.
  replace (Z.of_nat p + Z.of_nat t - Z.of_nat p) with (Z.of_nat t) by lia.
  rewrite !Nat2Z.id. apply substring_middle.
Qed.

(** Without an occurrence of the prefix, [substring(-1, 45)] is the head
    of the message. *)
Lemma graftBaseQm_without_prefix (msg : string) :
  JsString.indexOf msg "Qm" = -1 ->
  graftBaseQm msg = JsString.substring msg 0 45.
Proof.
  intros H. unfold graftBaseQm. rewrite H.
  unfold JsString.substring, JsString.clamp.
  replace (Z.min (-1) (Z.of_nat (String.length msg))) with (-1) by lia.
  replace (Z.max 0 (-1)) with (Z.max 0 (Z.min 0 (Z.of_nat (String.length msg)))) by lia.
  reflexivity.
Qed.

Lemma append_assoc (a b c : string) : (a ++ b) ++ c = a ++ b ++ c.
Proof. induction a as [|x a IH]; cbn; [reflexivity | now rewrite IH]. Qed.

Lemma prefix_app (needle rest : string) : prefix needle (needle ++ rest) = true.
Proof.
  induction needle as [|x needle IH]; cbn.
  - destruct rest; reflexivity.
  - destruct (ascii_dec x x); [exact IH | congruence].
Qed.

Lemma indexOf_from_unfold (needle s : string) (i : Z) :
  JsString.indexOf_from needle s i
  = if prefix needle s then i
    else match s with
         | EmptyString => -1
         | String _ s' => JsString.indexOf_from needle s' (i + 1)
         end.
Proof. destruct s; reflexivity. Qed.

(** An occurrence of the needle is found: [indexOf] is not -1. *)
Lemma indexOf_from_occurrence (needle a b : string) :
  forall i, 0 <= i -> 0 <= JsString.indexOf_from needle (a ++ needle ++ b) i.
Proof.
  induction a as [|x a IH]; intros i Hi.
  - cbn [append]. rewrite indexOf_from_unfold, prefix_app. exact Hi.
  - cbn [append]. rewrite indexOf_from_unfold.
    destruct (prefix needle (String x (a ++ needle ++ b))); [exact Hi |].
    apply IH. lia.
Qed.

Lemma includes_occurrence (needle a b : string) :
  JsString.includes (a ++ needle ++ b) needle = true.
Proof.
  unfold JsString.includes, JsString.indexOf. apply Z.leb_le.
  apply indexOf_from_occurrence. lia.
Qed.

Lemma absent_no_occurrence (s needle : string) :
  JsString.indexOf s needle = -1 -> forall a b, s <> a ++ needle ++ b.
Proof.
  intros H a b ->. unfold JsString.indexOf in H.
  pose proof (indexOf_from_occurrence needle a b 0 ltac:(lia)). lia.
Qed.

Lemma prefix_Qm (s : string) :
  prefix "Qm" s = true -> exists t, s = String "Q" (String "m" t).
Proof.
  intros H. destruct s as [|x s]; [cbn in H; discriminate H |].
  cbn [prefix] in H. destruct (ascii_dec "Q" x) as [<-|]; [| discriminate H].
  destruct s as [|y s]; [cbn in H; discriminate H |].
  cbn [prefix] in H. destruct (ascii_dec "m" y) as [<-|]; [| discriminate H].
  now exists s.
Qed.

(** [indexOf] finds the first occurrence: when no "Qm" lies in [pre] and
    [rest] starts with "Qm", the index found in [pre ++ rest] is the
    length of [pre]. *)
Lemma indexOf_from_first_Qm (pre : string) :
  forall rest i,
    prefix "Qm" rest = true ->
    (forall a b, pre <> a ++ "Qm" ++ b) ->
    JsString.indexOf_from "Qm" (pre ++ rest) i = i + Z.of_nat (String.length pre).
Proof.
  induction pre as [|x pre IH]; intros rest i Hrest Hno.
  - cbn [append String.length]. rewrite indexOf_from_unfold, Hrest. cbn. lia.
  - cbn [append]. rewrite indexOf_from_unfold.
    replace (prefix "Qm" (String x (pre ++ rest))) with false.
    + rewrite IH; [cbn [String.length]; lia | exact Hrest |].
      intros a b E. apply (Hno (String x a) b). cbn [append]. now rewrite E.
    + symmetry. cbn [prefix].
      destruct (ascii_dec "Q" x) as [<-|]; [| reflexivity].
      destruct pre as [|y pre].
      * destruct (prefix_Qm rest Hrest) as [t ->]. reflexivity.
      * cbn [append prefix].
        destruct (ascii_dec "m" y) as [<-|]; [| reflexivity].
        exfalso. apply (Hno "" pre). reflexivity.
Qed.

(** *** Base58 *)

Lemma digit_symbol (c : ascii) (d : Z) :
  CommonTs.digit c = Some d -> 0 <= d < 58 /\ CommonTs.symbol d = c.
Proof.
  destruct c as [b0 b1 b2 b3 b4 b5 b6 b7].
  destruct b0, b1, b2, b3, b4, b5, b6, b7; vm_compute;
    intros H; try discriminate H; injection H as <-; vm_compute;
    (split; [split; [discriminate | reflexivity] | reflexivity]).
Qed.

Lemma symbol_digit_nat (k : nat) :
  (k < 58)%nat -> CommonTs.digit (CommonTs.symbol (Z.of_nat k)) = Some (Z.of_nat k).
Proof.
  intros H.
  do 58 (destruct k as [|k]; [vm_compute; reflexivity |]).
  lia.
Qed.

Lemma symbol_digit (d : Z) :
  0 <= d < 58 -> CommonTs.digit (CommonTs.symbol d) = Some d.
Proof.
  intros H. rewrite <- (Z2Nat.id d) by lia. apply symbol_digit_nat. lia.
Qed.

Lemma decode_from_lower (s : string) :
  forall a v, 0 < a -> CommonTs.decode_from a s = Some v ->
              a * 2 ^ Z.of_nat (String.length s) <= v.
Proof.
  induction s as [|c s IH]; intros a v Ha H; cbn [CommonTs.decode_from] in H.
  - injection H as <-. cbn. lia.
  - destruct (CommonTs.digit c) as [d|] eqn:Ed; [| discriminate].
    destruct (digit_symbol c d Ed) as [Hd _].
    specialize (IH (a * 58 + d) v ltac:(lia) H).
    cbn [String.length]. rewrite Nat2Z.inj_succ, Z.pow_succ_r by lia.
    assert (0 < 2 ^ Z.of_nat (String.length s)) by (apply Z.pow_pos_nonneg; lia).
    nia.
Qed.

Lemma encode_onto_decoded (s : string) :
  forall a acc fuel v,
    0 < a -> CommonTs.decode_from a s = Some v -> (String.length s <= fuel)%nat ->
    CommonTs.encode_onto fuel v acc
    = CommonTs.encode_onto (fuel - String.length s) a (s ++ acc).
Proof.
  induction s as [|c s IH]; intros a acc fuel v Ha H Hf; cbn [CommonTs.decode_from] in H.
  - injection H as <-. cbn. now rewrite Nat.sub_0_r.
  - destruct (CommonTs.digit c) as [d|] eqn:Ed; [| discriminate].
    destruct (digit_symbol c d Ed) as [Hd Hs].
    cbn [String.length] in Hf.
    rewrite (IH (a * 58 + d) acc fuel v ltac:(lia) H ltac:(lia)).
    replace (fuel - String.length s)%nat with (S (fuel - String.length (String c s)))
      by (cbn [String.length]; lia).
    cbn [CommonTs.encode_onto].
    replace (a * 58 + d =? 0) with false by (symmetry; apply Z.eqb_neq; lia).
    replace ((a * 58 + d) / 58) with a by (apply Z.div_unique with d; lia).
    replace ((a * 58 + d) mod 58) with d by (apply Z.mod_unique with a; lia).
    rewrite Hs. reflexivity.
Qed.

(** Encoding undoes decoding on a string of the alphabet that does not
    start with the digit zero. *)
Lemma encode_decode (c : ascii) (s : string) (d n : Z) :
  CommonTs.digit c = Some d -> 0 < d ->
  CommonTs.decode (String c s) = Some n ->
  CommonTs.encode n = String c s.
Proof.
  intros Ed Hd H. unfold CommonTs.decode in H. cbn [CommonTs.decode_from] in H.
  rewrite Ed in H. cbn in H.
  destruct (digit_symbol c d Ed) as [Hr Hs].
  pose proof (decode_from_lower s d n Hd H) as Hlow.
  assert (Hp : 0 < 2 ^ Z.of_nat (String.length s)) by (apply Z.pow_pos_nonneg; lia).
  assert (Hn : 0 < n) by nia.
  assert (Hlog : Z.of_nat (String.length s) <= Z.log2 n).
  { apply Z.log2_le_pow2; [exact Hn | nia]. }
  unfold CommonTs.encode.
  rewrite (encode_onto_decoded s d "" _ n Hd H) by lia.
  replace (S (Z.to_nat (Z.log2 n)) - String.length s)%nat
    with (S (Z.to_nat (Z.log2 n) - String.length s)) by lia.
  cbn [CommonTs.encode_onto].
  replace (d =? 0) with false by (symmetry; apply Z.eqb_neq; lia).
  rewrite Z.div_small, Z.mod_small by lia. rewrite Hs.
  replace (s ++ "") with s.
  - destruct (Z.to_nat (Z.log2 n) - String.length s)%nat; reflexivity.
  - clear. induction s as [|x s IH]; cbn; [reflexivity | now rewrite <- IH].
Qed.

Lemma decode_encode_onto (fuel : nat) :
  forall n acc, 0 <= n < 58 ^ Z.of_nat fuel ->
    CommonTs.decode_from 0 (CommonTs.encode_onto fuel n acc) = CommonTs.decode_from n acc.
Proof.
  induction fuel as [|fuel IH]; intros n acc Hn.
  - cbn in Hn. replace n with 0 by lia. reflexivity.
  - cbn [CommonTs.encode_onto]. destruct (n =? 0) eqn:E.
    + apply Z.eqb_eq in E. now subst n.
    + apply Z.eqb_neq in E.
      rewrite Nat2Z.inj_succ, Z.pow_succ_r in Hn by lia.
      rewrite IH.
      * cbn [CommonTs.decode_from].
        rewrite symbol_digit by (apply Z.mod_pos_bound; lia).
        f_equal. pose proof (Z.div_mod n 58). lia.
      * split; [apply Z.div_pos; lia |].
        apply Z.div_lt_upper_bound; lia.
Qed.

(** Decoding undoes encoding. *)
Lemma decode_encode (n : Z) : 0 < n -> CommonTs.decode (CommonTs.encode n) = Some n.
Proof.
  intros Hn. unfold CommonTs.decode, CommonTs.encode.
  rewrite decode_encode_onto; [reflexivity |].
  split; [lia |].
  rewrite Nat2Z.inj_succ, Z2Nat.id by apply Z.log2_nonneg.
  destruct (Z.log2_spec n Hn) as [_ H].
  apply Z.lt_le_trans with (1 := H).
  apply Z.pow_le_mono_l. pose proof (Z.log2_nonneg n). lia.
Qed.

Lemma allChars_decodes (s : string) :
  CommonTs.allChars CommonTs.isBase58 s = true ->
  forall a, exists n, CommonTs.decode_from a s = Some n.
Proof.
  induction s as [|c s IH]; intros H a.
  - now exists a.
  - cbn [CommonTs.allChars] in H. apply andb_prop in H as [Hc Hs].
    unfold CommonTs.isBase58 in Hc. cbn [CommonTs.decode_from].
    destruct (CommonTs.digit c) as [d|]; [| discriminate].
    apply IH. exact Hs.
Qed.

Lemma decode_from_bounds (s : string) :
  forall a v, 0 <= a -> CommonTs.decode_from a s = Some v ->
              a * 58 ^ Z.of_nat (String.length s) <= v
              < (a + 1) * 58 ^ Z.of_nat (String.length s).
Proof.
  induction s as [|c s IH]; intros a v Ha H; cbn [CommonTs.decode_from] in H.
  - injection H as <-. cbn. lia.
  - destruct (CommonTs.digit c) as [d|] eqn:Ed; [| discriminate].
    destruct (digit_symbol c d Ed) as [Hd _].
    specialize (IH (a * 58 + d) v ltac:(lia) H).
    cbn [String.length]. rewrite Nat2Z.inj_succ, Z.pow_succ_r by lia.
    assert (0 < 58 ^ Z.of_nat (String.length s)) by (apply Z.pow_pos_nonneg; lia).
    nia.
Qed.

(** A string of the Qm form decodes to exactly 34 bytes: the number it
    spells needs 34 bytes and no more, so that the bytes after the first
    two are its remainder modulo 2^256. *)
Lemma multiHashCheck_decodes_34_bytes (tok : string) (n : Z) :
  CommonTs.multiHashCheck tok = true ->
  CommonTs.decode tok = Some n ->
  2 ^ (8 * 33) <= n < 2 ^ (8 * 34).
Proof.
  unfold CommonTs.multiHashCheck. intros H Hn.
  apply andb_prop in H as [H _]. apply andb_prop in H as [Hlen Hp].
  apply Nat.eqb_eq in Hlen.
  destruct (prefix_Qm tok Hp) as [t ->].
  cbn [String.length] in Hlen.
  unfold CommonTs.decode in Hn. cbn [CommonTs.decode_from] in Hn.
  change (CommonTs.digit "Q") with (Some 23) in Hn.
  change (CommonTs.digit "m") with (Some 44) in Hn.
  cbn beta iota in Hn.
  pose proof (decode_from_bounds t ((0 * 58 + 23) * 58 + 44) n ltac:(lia) Hn) as Hb.
  replace (String.length t) with 44%nat in Hb by lia.
  assert (Hlo : 2 ^ (8 * 33) <= ((0 * 58 + 23) * 58 + 44) * 58 ^ Z.of_nat 44)
    by (vm_compute; discriminate).
  assert (Hhi : ((0 * 58 + 23) * 58 + 44 + 1) * 58 ^ Z.of_nat 44 <= 2 ^ (8 * 34))
    by (vm_compute; discriminate).
  lia.
Qed.

Lemma multiHashCheck_decodes (tok : string) :
  CommonTs.multiHashCheck tok = true ->
  exists s n, tok = String "Q" s /\ CommonTs.decode tok = Some n.
Proof.
  unfold CommonTs.multiHashCheck. intros H.
  apply andb_prop in H as [H Hall]. apply andb_prop in H as [_ Hp].
  destruct tok as [|c tok]; [cbn in Hp; discriminate Hp |].
  cbn [prefix] in Hp. destruct (ascii_dec "Q" c) as [<-|]; [| discriminate Hp].
  destruct (allChars_decodes _ Hall 0) as [n Hn].
  exists tok, n. split; [reflexivity | exact Hn].
Qed.

Lemma ipfsHashOf_fixed (tok : string) :
  CommonTs.multiHashCheck tok = true ->
  (CommonTs.ipfsHashOf tok = tok <-> CommonTs.canonical tok = true).
Proof.
  intros H. destruct (multiHashCheck_decodes tok H) as (s & n & -> & Hn).
  unfold CommonTs.ipfsHashOf, CommonTs.ipfsHash_of_value, CommonTs.value, CommonTs.canonical.
  rewrite H, Hn.
  assert (Hpos : 0 < 2 ^ 256) by reflexivity.
  set (p := 2 ^ 256) in *. clearbody p.
  pose proof (Z.mod_pos_bound n p Hpos) as Hm.
  pose proof (Z.div_mod n p ltac:(lia)) as Hdm.
  set (r := n mod p) in *. clearbody r.
  split.
  - intros E. apply Z.eqb_eq.
    assert (Hd : CommonTs.decode (CommonTs.encode (4640 * p + r))
                 = Some (4640 * p + r)) by (apply decode_encode; lia).
    rewrite E, Hn in Hd.
    assert (Hd' : n = 4640 * p + r) by congruence.
    symmetry. apply Z.div_unique with r; lia.
  - intros E. apply Z.eqb_eq in E.
    replace (4640 * p + r) with n by lia.
    apply (encode_decode "Q" s 23 n); [reflexivity | lia | exact Hn].
Qed.

Section Properties.

Variable valid : string -> bool.
Variable hashOf : string -> string.
Variable msgs : IndexerErrorCode -> string.
Variable remote : list Request -> Request -> RpcOutcome.
Variable random : nat -> Q.

(** *** The graft resolver *)

Lemma graftBase_at_ceiling (this : SubgraphManager) (msg : string) (depth : Z) (st : State) :
  JsString.includes msg graftSignature = true ->
  autoGraftResolverDepth this <= depth ->
  graftBase valid hashOf this msg depth st =
  (Ret None,
   emitted (EvLog WARN "Grafting depth for deployment reached auto-graft-resolver-depth limit") st).
Proof.
  intros Hsig Hd. unfold graftBase. rewrite Hsig.
  replace (depth >=? autoGraftResolverDepth this) with true
    by (symmetry; apply Z.geb_le; lia).
  reflexivity.
Qed.

Lemma graftBase_below_ceiling (this : SubgraphManager) (msg : string) (depth : Z) (st : State) :
  JsString.includes msg graftSignature = true ->
  depth < autoGraftResolverDepth this ->
  graftBase valid hashOf this msg depth st =
  if valid (graftBaseQm msg)
  then (Ret (Some (mkSubgraphDeploymentID (nextOid st) (hashOf (graftBaseQm msg)))), allocated st)
  else (Throw (Err ("Invalid subgraph deployment ID: " ++ graftBaseQm msg)), st).
Proof.
  intros Hsig Hd. unfold graftBase. rewrite Hsig.
  replace (depth >=? autoGraftResolverDepth this) with false
    by (symmetry; rewrite Z.geb_leb; apply Z.leb_gt; lia).
  unfold bind, new_SubgraphDeploymentID.
  destruct (valid (graftBaseQm msg)); reflexivity.
Qed.

Lemma graftBase_without_signature (this : SubgraphManager) (msg : string) (depth : Z) (st : State) :
  JsString.includes msg graftSignature = false ->
  graftBase valid hashOf this msg depth st = (Ret None, st).
Proof. intros Hsig. unfold graftBase. now rewrite Hsig. Qed.

(** *** Symbolic evaluation of [deploy] *)

(** [deploy] on a graft-base failure that the resolver resolves. *)
Lemma deploy_resolves
    (ensure_rec : string -> SubgraphDeploymentID -> option string -> Z -> M unit)
    (this : SubgraphManager) (name : string) (deployment : SubgraphDeploymentID)
    (indexNode : option string) (depth : Z) (st st1 : State)
    (target : option string) (msg : string) :
  selectTargetNode random this indexNode st = (Ret target, st1) ->
  remote (requests_of (trace st1)) (subgraph_deploy name (ipfsHash deployment) target)
    = Responded (Some msg) ->
  JsString.includes msg graftSignature = true ->
  depth < autoGraftResolverDepth this ->
  valid (graftBaseQm msg) = true ->
  deploy valid hashOf remote random ensure_rec this name deployment indexNode depth st =
  match ensure_rec name (mkSubgraphDeploymentID (nextOid st1) (hashOf (graftBaseQm msg))) target (depth + 1)
          (logged DEBUG "Found graft base deployment, ensure deployment and a matching offchain indexing rules"
             (allocated (deploy_requested name deployment target st1))) with
  | (Ret _, st3) =>
      match ensure_rec name deployment target depth st3 with
      | (Ret _, st4) =>
          (Throw (IndexerError IE026 (IndexerError IE069 (Err msg))), deploy_failed st4)
      | (Throw e, st4) => (Throw (IndexerError IE026 e), deploy_failed st4)
      | (OutOfFuel, st4) => (OutOfFuel, st4)
      end
  | (Throw e, st3) => (Throw (IndexerError IE026 e), deploy_failed st3)
  | (OutOfFuel, st3) => (OutOfFuel, st3)
  end.
Proof.
  intros Hsel Hrem Hsig Hd Hval.
  unfold deploy. unfold bind at 1. rewrite Hsel.
  unfold try_catch. unfold bind at 1. unfold logger at 1, emit at 1.
  unfold bind at 1. unfold request. cbn [trace requests_of rules nextOid draws].
  rewrite Hrem.
  unfold bind at 1.
  rewrite (graftBase_below_ceiling this msg depth _ Hsig Hd). rewrite Hval.
  unfold bind at 1. unfold logger at 1, emit at 1.
  cbn [trace requests_of rules nextOid draws allocated].
  unfold bind at 1.
  unfold logged, deploy_requested, emitted, allocated, logged, emitted.
  cbn [trace requests_of rules nextOid draws].
  match goal with |- context [ensure_rec name ?b target (depth + 1) ?s] =>
    destruct (ensure_rec name b target (depth + 1) s) as [[[]|e|] st3] end;
    try reflexivity.
  unfold bind at 1.
  destruct (ensure_rec name deployment target depth st3) as [[[]|e|] st4]; reflexivity.
Qed.

(** *** How the trace grows *)

Lemma grows_by_refl P st : grows_by P st st.
Proof. exists []. split; [reflexivity | constructor]. Qed.

Lemma grows_by_trans P st1 st2 st3 :
  grows_by P st1 st2 -> grows_by P st2 st3 -> grows_by P st1 st3.
Proof.
  intros [e1 [H1 F1]] [e2 [H2 F2]]. exists (e2 ++ e1)%list. split.
  - rewrite H2, H1. now rewrite app_assoc.
  - apply Forall_app. now split.
Qed.

Lemma grows_by_emitted (P : Event -> Prop) e st : P e -> grows_by P st (emitted e st).
Proof. intros H. exists [e]. split; [reflexivity | now constructor]. Qed.

Lemma grows_by_same_trace P st st' : trace st' = trace st -> grows_by P st st'.
Proof. intros H. exists []. split; [exact H | constructor]. Qed.

Lemma respects_ret P {A} (a : A) : respects P (ret a).
Proof. intros st. apply grows_by_refl. Qed.

Lemma respects_throw P {A} e : respects P (@throw A e).
Proof. intros st. apply grows_by_refl. Qed.

Lemma respects_out_of_fuel P {A} : respects P (@out_of_fuel A).
Proof. intros st. apply grows_by_refl. Qed.

Lemma respects_bind P {A B} (m : M A) (k : A -> M B) :
  respects P m -> (forall a, respects P (k a)) -> respects P (bind m k).
Proof.
  intros Hm Hk st. unfold bind. specialize (Hm st).
  destruct (m st) as [[a|e|] st']; cbn [snd] in *; try assumption.
  eapply grows_by_trans; [exact Hm | apply Hk].
Qed.

Lemma respects_try_catch P {A} (body : M A) (handler : JsError -> M A) :
  respects P body -> (forall e, respects P (handler e)) -> respects P (try_catch body handler).
Proof.
  intros Hm Hk st. unfold try_catch. specialize (Hm st).
  destruct (body st) as [[a|e|] st']; cbn [snd] in *; try assumption.
  eapply grows_by_trans; [exact Hm | apply Hk].
Qed.

Lemma respects_emit (P : Event -> Prop) e : P e -> respects P (emit e).
Proof. intros H st. now apply grows_by_emitted. Qed.

Lemma respects_request (P : Event -> Prop) r : P (EvRequest r) -> respects P (request remote r).
Proof.
  intros H st. unfold request.
  destruct (remote (requests_of (trace st)) r); cbn [snd];
    exists [EvRequest r]; (split; [reflexivity | now constructor]).
Qed.

Lemma respects_new P id : respects P (new_SubgraphDeploymentID valid hashOf id).
Proof.
  intros st. unfold new_SubgraphDeploymentID.
  destruct (valid id); cbn [snd]; now apply grows_by_same_trace.
Qed.

Lemma respects_random P : respects P (Math_random random).
Proof. intros st. now apply grows_by_same_trace. Qed.

Lemma respects_fetch P : respects P fetchIndexingRules.
Proof. intros st. apply grows_by_refl. Qed.

Lemma respects_upsert (P : Event -> Prop) r :
  P (EvUpsert r) -> respects P (upsertIndexingRule r).
Proof. intros H st. exists [EvUpsert r]. split; [reflexivity | now constructor]. Qed.

Lemma respects_mapM P {A B} (f : A -> M B) (l : list A) :
  (forall a, respects P (f a)) -> respects P (mapM f l).
Proof.
  intros Hf. induction l as [|x l IH]; cbn [mapM].
  - apply respects_ret.
  - apply respects_bind; [apply Hf | intros y].
    apply respects_bind; [exact IH | intros ys]. apply respects_ret.
Qed.

Ltac respects_step :=
  first
    [ apply respects_ret | apply respects_throw | apply respects_out_of_fuel
    | apply respects_new | apply respects_random | apply respects_fetch
    | apply respects_bind; [| intros ?]
    | apply respects_try_catch; [| intros ?]
    | apply respects_mapM; intros ? ].

Lemma respects_logger P l msg : admits_logs P -> respects P (logger l msg).
Proof. intros H. apply respects_emit, H. Qed.

Lemma respects_graftBase P this msg depth :
  admits_logs P -> respects P (graftBase valid hashOf this msg depth).
Proof.
  intros HP. unfold graftBase.
  destruct (JsString.includes msg graftSignature); [| apply respects_ret].
  destruct (depth >=? autoGraftResolverDepth this).
  - apply respects_bind; [now apply respects_logger | intros; apply respects_ret].
  - repeat respects_step.
Qed.

Lemma respects_createSubgraph P name :
  admits_logs P -> P (EvRequest (subgraph_create name)) ->
  respects P (createSubgraph msgs remote name).
Proof.
  intros HP Hr. unfold createSubgraph.
  apply respects_try_catch.
  - apply respects_bind; [now apply respects_logger | intros _].
    apply respects_bind; [now apply respects_request | intros [e|]].
    + apply respects_throw.
    + now apply respects_logger.
  - intros e. apply respects_bind; [| intros; apply respects_throw].
    destruct (JsString.includes (message msgs e) "already exists");
      [now apply respects_logger | apply respects_ret].
Qed.

(** [selectTargetNode] always returns, and touches the trace with at
    most a warning. *)
Lemma selectTargetNode_returns this indexNode st :
  exists target st1,
    selectTargetNode random this indexNode st = (Ret target, st1)
    /\ requests_of (trace st1) = requests_of (trace st)
    /\ ensure_calls (trace st1) = ensure_calls (trace st)
    /\ rules st1 = rules st /\ nextOid st1 = nextOid st
    /\ (indexNode = None -> trace st1 = trace st /\ draws st1 = S (draws st)).
Proof.
  unfold selectTargetNode. destruct indexNode as [[|c n]|].
  - eexists _, _. split; [reflexivity |]. cbn. repeat split; congruence.
  - unfold bind, logger, emit, ret.
    destruct (negb (array_includes (indexNodeIDs this) (String c n)));
      eexists _, _; (split; [reflexivity |]); cbn; repeat split; congruence.
  - eexists _, _. split; [reflexivity |]. cbn. repeat split; congruence.
Qed.

Lemma respects_selectTargetNode P this indexNode :
  admits_logs P -> respects P (selectTargetNode random this indexNode).
Proof.
  intros HP. unfold selectTargetNode.
  destruct indexNode as [[|c n]|].
  - repeat respects_step.
  - apply respects_bind; [| intros; apply respects_ret].
    destruct (negb _); [now apply respects_logger | apply respects_ret].
  - repeat respects_step.
Qed.

Lemma respects_bind_val P {A B} (Q : A -> Prop) (m : M A) (k : A -> M B) :
  respects P m ->
  (forall st a st', m st = (Ret a, st') -> Q a) ->
  (forall a, Q a -> respects P (k a)) ->
  respects P (bind m k).
Proof.
  intros Hm HQ Hk st. unfold bind. specialize (Hm st). specialize (HQ st).
  destruct (m st) as [[a|e|] st']; cbn [snd] in *; try assumption.
  eapply grows_by_trans; [exact Hm | apply Hk, (HQ a st'); reflexivity].
Qed.

(** A family of target nodes [I] that node selection does not leave,
    and a predicate [P] that admits every event naming such a node:
    then [P] holds of every event of an [ensure] started on such a
    node, however deep the graft resolution goes. *)
Section Respects.

Variable P : Event -> Prop.
Variable I : option string -> Prop.
Variable this : SubgraphManager.

Hypothesis P_logs : admits_logs P.
Hypothesis P_upsert : forall rule, P (EvUpsert rule).
Hypothesis P_create : forall name, P (EvRequest (subgraph_create name)).
Hypothesis P_deploy : forall name hash node,
    I node -> P (EvRequest (subgraph_deploy name hash node)).
Hypothesis P_reassign : forall hash node,
    I node -> P (EvRequest (subgraph_reassign node hash)).
Hypothesis P_ensure : forall name hash node d,
    I node -> P (EvEnsure name hash node d).
Hypothesis I_select : forall i st a st',
    I i -> selectTargetNode random this i st = (Ret a, st') -> I a.

Lemma respects_deploy ensure_rec name deployment indexNode depth :
  I indexNode ->
  (forall n d node k, I node -> respects P (ensure_rec n d node k)) ->
  respects P (deploy valid hashOf remote random ensure_rec this name deployment indexNode depth).
Proof.
  intros Hi Hrec. unfold deploy.
  apply (respects_bind_val P I).
  - now apply respects_selectTargetNode.
  - intros st a st' H. exact (I_select _ _ _ _ Hi H).
  - intros target Ht. apply respects_try_catch.
    + apply respects_bind; [now apply respects_logger | intros _].
      apply respects_bind; [now apply respects_request, P_deploy | intros [e|]].
      * apply respects_bind; [now apply respects_graftBase | intros [b|]].
        -- apply respects_bind; [now apply respects_logger | intros _].
           apply respects_bind; [now apply Hrec | intros _].
           apply respects_bind; [now apply Hrec | intros _].
           apply respects_throw.
        -- apply respects_throw.
      * apply respects_bind; [now apply respects_logger | intros _].
        apply respects_bind; [apply respects_fetch | intros fetched].
        apply respects_bind; [apply respects_mapM; intros; apply respects_new | intros objs].
        destruct (negb _); [apply respects_upsert, P_upsert | apply respects_ret].
    + intros e. apply respects_bind; [now apply respects_logger | intros _].
      apply respects_throw.
Qed.

Lemma respects_reassign deployment indexNode :
  I indexNode ->
  respects P (reassign msgs remote random this deployment indexNode).
Proof.
  intros Hi. unfold reassign.
  apply (respects_bind_val P I).
  - now apply respects_selectTargetNode.
  - intros st a st' H. exact (I_select _ _ _ _ Hi H).
  - intros target Ht. apply respects_try_catch.
    + apply respects_bind; [now apply respects_logger | intros _].
      apply respects_bind; [now apply respects_request, P_reassign | intros [e|]].
      * apply respects_throw.
      * apply respects_ret.
    + intros e. destruct (JsString.includes _ _).
      * apply respects_bind; [now apply respects_logger | intros _]. apply respects_throw.
      * apply respects_bind; [now apply respects_logger | intros _]. apply respects_throw.
Qed.

Lemma respects_ensure fuel :
  forall name deployment indexNode depth,
    I indexNode ->
    respects P (ensure valid hashOf msgs remote random fuel this name deployment indexNode depth).
Proof.
  induction fuel as [|fuel IH]; intros name deployment indexNode depth Hi; cbn [ensure].
  - apply respects_out_of_fuel.
  - apply respects_bind; [now apply respects_emit, P_ensure | intros _].
    apply respects_try_catch.
    + apply respects_bind; [now apply respects_createSubgraph | intros _].
      apply respects_bind; [| intros _; now apply respects_reassign].
      apply respects_deploy; [exact Hi |].
      intros n d node k Hn. now apply IH.
    + intros e. apply respects_bind; [now apply respects_logger | intros _].
      apply respects_throw.
Qed.

End Respects.

Lemma requests_of_app (a b : list Event) :
  requests_of (a ++ b) = (requests_of a ++ requests_of b)%list.
Proof.
  induction a as [|e a IH]; [reflexivity |].
  destruct e; cbn [requests_of app]; now rewrite IH.
Qed.

Lemma ensure_calls_app (a b : list Event) :
  ensure_calls (a ++ b) = (ensure_calls a ++ ensure_calls b)%list.
Proof.
  induction a as [|e a IH]; [reflexivity |].
  destruct e; cbn [ensure_calls app]; now rewrite IH.
Qed.

(** Every run of [ensure] only adds to the trace. *)
Lemma ensure_grows fuel this name deployment indexNode depth st :
  exists evs,
    trace (snd (ensure valid hashOf msgs remote random fuel this name deployment indexNode depth st))
    = (evs ++ trace st)%list.
Proof.
  assert (R : respects (fun _ => True)
                (ensure valid hashOf msgs remote random fuel this name deployment indexNode depth)).
  { apply (respects_ensure (fun _ => True) (fun _ => True));
      try (unfold admits_logs; intros; exact Logic.I). }
  destruct (R st) as [evs [H _]]. now exists evs.
Qed.

(** With fuel left, [ensure] opens with the registration of the name:
    its first request is [subgraph_create]. *)
Lemma ensure_opens_with_create fuel this name deployment indexNode depth st :
  exists evs,
    trace (snd (ensure valid hashOf msgs remote random (S fuel) this name deployment indexNode depth st))
    = (evs ++ EvRequest (subgraph_create name)
            :: EvLog INFO "Create subgraph name"
            :: EvEnsure name (ipfsHash deployment) indexNode
                 (match depth with Some d => d | None => 0 end)
            :: trace st)%list.
Proof.
  set (d := match depth with Some d => d | None => 0 end).
  set (rec := fun n b i k => ensure valid hashOf msgs remote random fuel this n b i (Some k)).
  set (s_c := emitted (EvRequest (subgraph_create name))
                (logged INFO "Create subgraph name"
                   (emitted (EvEnsure name (ipfsHash deployment) indexNode d) st))).
  set (rest :=
         try_catch
           (bind
              (try_catch
                 (match remote (requests_of (trace st)) (subgraph_create name) with
                  | Rejected m => throw (Err m)
                  | Responded (Some e) => throw (Err e)
                  | Responded None => logger INFO "Successfully created subgraph name"
                  end)
                 (fun error =>
                    bind (if JsString.includes (message msgs error) "already exists"
                          then logger DEBUG "Subgraph name already exists"
                          else ret tt)
                         (fun _ => throw error)))
              (fun _ =>
                 bind (deploy valid hashOf remote random rec this name deployment indexNode d)
                      (fun _ => reassign msgs remote random this deployment indexNode)))
           (fun error =>
              bind (logger ERROR "Failed to ensure subgraph deployment is indexing")
                   (fun _ => throw error))).
  assert (E : ensure valid hashOf msgs remote random (S fuel) this name deployment indexNode depth st
              = rest s_c).
  { cbn [ensure]. fold d. fold rec. subst rest s_c.
    unfold createSubgraph, bind at 1, emit at 1.
    unfold try_catch, bind, logger, emit, request, emitted, logged, emitted, throw.
    cbn [trace requests_of rules nextOid draws].
    destruct (remote (requests_of (trace st)) (subgraph_create name)) as [m|[e|]];
      reflexivity. }
  rewrite E.
  assert (R : respects (fun _ => True) rest).
  { subst rest. apply respects_try_catch.
    - apply respects_bind.
      + apply respects_try_catch.
        * destruct (remote _ _) as [m|[e|]];
            [apply respects_throw | apply respects_throw |
             apply respects_logger; intros ? ?; exact Logic.I].
        * intros e. apply respects_bind; [| intros; apply respects_throw].
          destruct (JsString.includes _ _);
            [apply respects_logger; intros ? ?; exact Logic.I | apply respects_ret].
      + intros _. apply respects_bind.
        * apply (respects_deploy (fun _ => True) (fun _ => True));
            try (unfold admits_logs; intros; exact Logic.I).
          intros n b node k _. subst rec.
          apply (respects_ensure (fun _ => True) (fun _ => True));
            try (unfold admits_logs; intros; exact Logic.I).
        * intros _. apply (respects_reassign (fun _ => True) (fun _ => True));
            try (unfold admits_logs; intros; exact Logic.I).
    - intros e. apply respects_bind; [| intros; apply respects_throw].
      apply respects_logger; intros ? ?; exact Logic.I. }
  destruct (R s_c) as [evs [H _]]. exists evs. rewrite H. reflexivity.
Qed.

(** [deploy] on a failure the resolver does not resolve. *)
Lemma deploy_unresolved
    (ensure_rec : string -> SubgraphDeploymentID -> option string -> Z -> M unit)
    (this : SubgraphManager) (name : string) (deployment : SubgraphDeploymentID)
    (indexNode : option string) (depth : Z) (st st1 st_g : State)
    (target : option string) (msg : string) :
  selectTargetNode random this indexNode st = (Ret target, st1) ->
  remote (requests_of (trace st1)) (subgraph_deploy name (ipfsHash deployment) target)
    = Responded (Some msg) ->
  graftBase valid hashOf this msg depth (deploy_requested name deployment target st1) = (Ret None, st_g) ->
  deploy valid hashOf remote random ensure_rec this name deployment indexNode depth st =
  (Throw (IndexerError IE026 (IndexerError IE026 (Err msg))), deploy_failed st_g).
Proof.
  intros Hsel Hrem Hg.
  unfold deploy. unfold bind at 1. rewrite Hsel.
  unfold try_catch. unfold bind at 1. unfold logger at 1, emit at 1.
  unfold bind at 1. unfold request. cbn [trace requests_of rules nextOid draws].
  rewrite Hrem. unfold bind at 1.
  unfold deploy_requested, logged, emitted in Hg. cbn [trace rules nextOid draws] in Hg.
  rewrite Hg. reflexivity.
Qed.

(** [deploy] on a graft-base failure whose token the identity
    constructor rejects. *)
Lemma deploy_rejected_token
    (ensure_rec : string -> SubgraphDeploymentID -> option string -> Z -> M unit)
    (this : SubgraphManager) (name : string) (deployment : SubgraphDeploymentID)
    (indexNode : option string) (depth : Z) (st st1 : State)
    (target : option string) (msg : string) :
  selectTargetNode random this indexNode st = (Ret target, st1) ->
  remote (requests_of (trace st1)) (subgraph_deploy name (ipfsHash deployment) target)
    = Responded (Some msg) ->
  JsString.includes msg graftSignature = true ->
  depth < autoGraftResolverDepth this ->
  valid (graftBaseQm msg) = false ->
  deploy valid hashOf remote random ensure_rec this name deployment indexNode depth st =
  (Throw (IndexerError IE026 (Err ("Invalid subgraph deployment ID: " ++ graftBaseQm msg))),
   deploy_failed (deploy_requested name deployment target st1)).
Proof.
  intros Hsel Hrem Hsig Hd Hval.
  unfold deploy. unfold bind at 1. rewrite Hsel.
  unfold try_catch. unfold bind at 1. unfold logger at 1, emit at 1.
  unfold bind at 1. unfold request. cbn [trace requests_of rules nextOid draws].
  rewrite Hrem. unfold bind at 1.
  rewrite (graftBase_below_ceiling this msg depth _ Hsig Hd). rewrite Hval.
  reflexivity.
Qed.

(** *** Claims about the graft resolver *)

(** C6: on a message with the graft-base signature, at a depth that has
    reached [autoGraftResolverDepth], [graftBase] returns [undefined]
    (after a warning); and a manager built without the third
    constructor argument has the ceiling 0, so that its [deploy] at
    depth 0 fails on such a message with IE026 without calling [ensure]:
    whatever [ensure_rec] is, no [ensure] is entered and the failed
    request is the only one sent. *)
Theorem graftBase_depth_ceiling (msg : string) :
  JsString.includes msg graftSignature = true ->
  (forall this depth st,
      autoGraftResolverDepth this <= depth ->
      graftBase valid hashOf this msg depth st =
      (Ret None,
       logged WARN "Grafting depth for deployment reached auto-graft-resolver-depth limit" st))
  /\
  (forall endpoint pool ensure_rec name deployment indexNode st st1 target,
      let this := new_SubgraphManager endpoint pool None in
      selectTargetNode random this indexNode st = (Ret target, st1) ->
      remote (requests_of (trace st1)) (subgraph_deploy name (ipfsHash deployment) target)
        = Responded (Some msg) ->
      autoGraftResolverDepth this = 0
      /\ exists st',
          deploy valid hashOf remote random ensure_rec this name deployment indexNode 0 st
          = (Throw (IndexerError IE026 (IndexerError IE026 (Err msg))), st')
          /\ ensure_calls (trace st') = ensure_calls (trace st)
          /\ requests_of (trace st')
             = subgraph_deploy name (ipfsHash deployment) target :: requests_of (trace st)).
Proof.
  intros Hsig. split.
  - intros this depth st Hd. now apply graftBase_at_ceiling.
  - intros endpoint pool ensure_rec name deployment indexNode st st1 target this Hsel Hrem.
    split; [reflexivity |].
    eexists. split.
    + eapply deploy_unresolved; [exact Hsel | exact Hrem |].
      apply graftBase_at_ceiling; [exact Hsig | cbn; lia].
    + destruct (selectTargetNode_returns this indexNode st)
        as (t & s & E & Hr & Hc & _).
      rewrite Hsel in E. injection E as <- <-.
      cbn [deploy_failed logged emitted deploy_requested trace ensure_calls requests_of].
      now rewrite Hr, Hc.
Qed.

(** C8, as the code has it: [graftBase] does not check the token it cuts out.
    Without any "Qm" the token is the first 45 characters of the
    message.  When the identity constructor rejects the token, the
    resolver returns [undefined] only at the depth ceiling; below it,
    the constructor's error is thrown out of [graftBase], and [deploy]
    raises IE026 carrying that error, having entered no [ensure]. *)
Theorem graftBase_rejected_token (this : SubgraphManager) (msg : string)
    (depth : Z) (st : State) :
  JsString.includes msg graftSignature = true ->
  valid (graftBaseQm msg) = false ->
  (JsString.indexOf msg "Qm" = -1 -> graftBaseQm msg = JsString.substring msg 0 45)
  /\ (autoGraftResolverDepth this <= depth ->
      fst (graftBase valid hashOf this msg depth st) = Ret None)
  /\ (depth < autoGraftResolverDepth this ->
      graftBase valid hashOf this msg depth st
      = (Throw (Err ("Invalid subgraph deployment ID: " ++ graftBaseQm msg)), st)
      /\ forall ensure_rec name deployment indexNode st0 st1 target,
          selectTargetNode random this indexNode st0 = (Ret target, st1) ->
          remote (requests_of (trace st1)) (subgraph_deploy name (ipfsHash deployment) target)
            = Responded (Some msg) ->
          deploy valid hashOf remote random ensure_rec this name deployment indexNode depth st0
          = (Throw (IndexerError IE026
                      (Err ("Invalid subgraph deployment ID: " ++ graftBaseQm msg))),
             deploy_failed (deploy_requested name deployment target st1))).
Proof.
  intros Hsig Hval. split; [apply graftBaseQm_without_prefix |]. split.
  - intros Hd. now rewrite graftBase_at_ceiling.
  - intros Hd. split.
    + rewrite (graftBase_below_ceiling this msg depth st Hsig Hd). now rewrite Hval.
    + intros. now apply deploy_rejected_token.
Qed.

(** *** Claims about the recursive resolution in [deploy] *)

(** C1, as the code has it: below the depth ceiling, when the answer to
    the deploy request is a graft-base failure whose token the identity
    constructor accepts, the next thing [deploy] does is one call of
    [ensure] for the identity [B] built from that token (its hash is the
    one the constructor gives it), on the selected node, at depth [d+1].
    If that call raises [e], [deploy] raises IE026 carrying [e] and the
    original deployment is not tried again.  Only when it returns is the
    original deployment tried again, from the state the call left, and
    the retry is a whole [ensure] at depth [d] on the selected node:
    with fuel left it opens with the [subgraph_create] request. *)
Theorem deploy_graft_recursion (fuel : nat) (this : SubgraphManager) (name : string)
    (deployment : SubgraphDeploymentID) (indexNode : option string) (depth : Z)
    (st st1 : State) (target : option string) (msg : string) :
  selectTargetNode random this indexNode st = (Ret target, st1) ->
  remote (requests_of (trace st1)) (subgraph_deploy name (ipfsHash deployment) target)
    = Responded (Some msg) ->
  JsString.includes msg graftSignature = true ->
  depth < autoGraftResolverDepth this ->
  valid (graftBaseQm msg) = true ->
  let ensure_rec := fun n d i k => ensure valid hashOf msgs remote random fuel this n d i (Some k) in
  let run := deploy valid hashOf remote random ensure_rec this name deployment indexNode depth st in
  let B := mkSubgraphDeploymentID (nextOid st1) (hashOf (graftBaseQm msg)) in
  let st2 := resolving name deployment target st1 in
  requests_of (trace st2)
    = subgraph_deploy name (ipfsHash deployment) target :: requests_of (trace st)
  /\ ensure_calls (trace st2) = ensure_calls (trace st)
  /\ exists r1 st3,
      ensure valid hashOf msgs remote random fuel this name B target (Some (depth + 1)) st2 = (r1, st3)
      /\ match r1 with
         | Ret _ =>
             exists r2 st4,
               ensure valid hashOf msgs remote random fuel this name deployment target (Some depth) st3
                 = (r2, st4)
               /\ snd run = match r2 with OutOfFuel => st4 | _ => deploy_failed st4 end
               /\ (fuel <> O ->
                   exists evs,
                     trace st4
                     = (evs ++ EvRequest (subgraph_create name)
                            :: EvLog INFO "Create subgraph name"
                            :: EvEnsure name (ipfsHash deployment) target depth
                            :: trace st3)%list)
         | Throw e => run = (Throw (IndexerError IE026 e), deploy_failed st3)
         | OutOfFuel => run = (OutOfFuel, st3)
         end.
Proof.
  intros Hsel Hrem Hsig Hd Hval ensure_rec run B st2.
  destruct (selectTargetNode_returns this indexNode st) as (t & s & E & Hr & Hc & _).
  rewrite Hsel in E. injection E as <- <-.
  split; [| split].
  - subst st2. cbn. now rewrite Hr.
  - subst st2. cbn. now rewrite Hc.
  - pose proof (deploy_resolves ensure_rec this name deployment indexNode depth
                  st st1 target msg Hsel Hrem Hsig Hd Hval) as Hrun.
    fold run in Hrun. fold B in Hrun.
    change (logged DEBUG _ (allocated (deploy_requested name deployment target st1)))
      with st2 in Hrun.
    unfold ensure_rec in Hrun at 1.
    destruct (ensure valid hashOf msgs remote random fuel this name B target (Some (depth + 1)) st2)
      as [r1 st3] eqn:E1.
    exists r1, st3. split; [reflexivity |].
    destruct r1 as [[]|e|]; try exact Hrun.
    unfold ensure_rec in Hrun.
    destruct (ensure valid hashOf msgs remote random fuel this name deployment target (Some depth) st3)
      as [r2 st4] eqn:E2.
    exists r2, st4. split; [reflexivity |]. split.
    + rewrite Hrun. destruct r2 as [[]|e|]; reflexivity.
    + intros Hf. destruct fuel as [|fuel']; [congruence |].
      destruct (ensure_opens_with_create fuel' this name deployment target (Some depth) st3)
        as [evs Hevs].
      rewrite E2 in Hevs. exists evs. exact Hevs.
Qed.

(** C2, as the code has it: once the recursive [ensure] of the graft
    base (the identity the constructor builds from the token of the
    message) has returned, what [deploy] raises follows the retry.  If
    the retry returns, [deploy] raises IE026 whose cause is the IE069
    error (graft retry required) built on the remote error.  If the
    retry raises [e], [deploy] raises IE026 whose cause is [e] itself,
    and builds no IE069 error. *)
Theorem deploy_graft_retry_outcome (fuel : nat) (this : SubgraphManager) (name : string)
    (deployment : SubgraphDeploymentID) (indexNode : option string) (depth : Z)
    (st st1 st3 : State) (target : option string) (msg : string) :
  selectTargetNode random this indexNode st = (Ret target, st1) ->
  remote (requests_of (trace st1)) (subgraph_deploy name (ipfsHash deployment) target)
    = Responded (Some msg) ->
  JsString.includes msg graftSignature = true ->
  depth < autoGraftResolverDepth this ->
  valid (graftBaseQm msg) = true ->
  ensure valid hashOf msgs remote random fuel this name
    (mkSubgraphDeploymentID (nextOid st1) (hashOf (graftBaseQm msg))) target (Some (depth + 1))
    (resolving name deployment target st1) = (Ret tt, st3) ->
  let ensure_rec := fun n d i k => ensure valid hashOf msgs remote random fuel this n d i (Some k) in
  let run := deploy valid hashOf remote random ensure_rec this name deployment indexNode depth st in
  (forall st4,
      ensure valid hashOf msgs remote random fuel this name deployment target (Some depth) st3
        = (Ret tt, st4) ->
      run = (Throw (IndexerError IE026 (IndexerError IE069 (Err msg))), deploy_failed st4))
  /\
  (forall e st4,
      ensure valid hashOf msgs remote random fuel this name deployment target (Some depth) st3
        = (Throw e, st4) ->
      run = (Throw (IndexerError IE026 e), deploy_failed st4)).
Proof.
  intros Hsel Hrem Hsig Hd Hval Hbase ensure_rec run.
  pose proof (deploy_resolves ensure_rec this name deployment indexNode depth
                st st1 target msg Hsel Hrem Hsig Hd Hval) as Hrun.
  fold run in Hrun. unfold ensure_rec in Hrun at 1.
  unfold resolving in Hbase. rewrite Hbase in Hrun. unfold ensure_rec in Hrun.
  split.
  - intros st4 H. now rewrite H in Hrun.
  - intros e st4 H. now rewrite H in Hrun.
Qed.

(** *** Claims about node selection *)

Lemma floor_index (r : Q) (n : nat) :
  (0 <= r)%Q -> (r < 1)%Q -> (0 < n)%nat ->
  0 <= Qfloor (r * inject_Z (Z.of_nat n)) < Z.of_nat n.
Proof.
  intros H0 H1 Hn.
  assert (HN : (0 < inject_Z (Z.of_nat n))%Q).
  { change 0%Q with (inject_Z 0). rewrite <- Zlt_Qlt. lia. }
  split.
  - change 0 with (Qfloor 0). apply Qfloor_resp_le.
    apply Qmult_le_0_compat; [exact H0 | now apply Qlt_le_weak].
  - rewrite Zlt_Qlt.
    apply Qle_lt_trans with (y := (r * inject_Z (Z.of_nat n))%Q); [apply Qfloor_le |].
    setoid_replace (inject_Z (Z.of_nat n)) with (1 * inject_Z (Z.of_nat n))%Q at 2 by ring.
    now apply Qmult_lt_r.
Qed.

Lemma array_get_member {A} (arr : list A) (i : Z) :
  0 <= i < Z.of_nat (List.length arr) ->
  exists x, array_get arr i = Some x /\ In x arr.
Proof.
  intros [H0 H1]. unfold array_get.
  replace (i <? 0) with false by (symmetry; apply Z.ltb_ge; lia).
  destruct (nth_error arr (Z.to_nat i)) as [x|] eqn:E.
  - exists x. split; [reflexivity | eapply nth_error_In; exact E].
  - apply nth_error_None in E. lia.
Qed.

(** C9, as the code has it: an explicit, non-empty [indexNode] is the target node
    as it stands, with a warning when it is not in the pool.  Without
    one ([undefined], or the empty string, which is falsy) and with a
    non-empty pool, the target is a member of the pool.  Without one
    and with an empty pool, nothing is raised: the target node is
    [undefined]. *)
Theorem node_selection (this : SubgraphManager) (st : State) :
  (forall c n,
      selectTargetNode random this (Some (String c n)) st
      = (Ret (Some (String c n)),
         if array_includes (indexNodeIDs this) (String c n) then st
         else logged WARN "Specified deployment target node not present in indexNodeIDs supplied at startup, proceeding with deploy to target node anyway." st))
  /\
  (forall indexNode,
      indexNode = None \/ indexNode = Some "" ->
      indexNodeIDs this <> [] ->
      (0 <= random (draws st))%Q -> (random (draws st) < 1)%Q ->
      exists node,
        selectTargetNode random this indexNode st = (Ret (Some node), drawn st)
        /\ In node (indexNodeIDs this))
  /\
  (forall indexNode,
      indexNode = None \/ indexNode = Some "" ->
      indexNodeIDs this = [] ->
      selectTargetNode random this indexNode st = (Ret None, drawn st)).
Proof.
  split; [| split].
  - intros c n. unfold selectTargetNode, bind, logger, emit, ret.
    destruct (array_includes (indexNodeIDs this) (String c n)); reflexivity.
  - intros indexNode Hi Hpool H0 H1.
    destruct (array_get_member (indexNodeIDs this)
                (Qfloor (random (draws st) * inject_Z (Z.of_nat (List.length (indexNodeIDs this))))))
      as [node [Hget Hin]].
    { apply floor_index; [exact H0 | exact H1 |].
      destruct (indexNodeIDs this); [congruence | cbn; lia]. }
    exists node. split; [| exact Hin].
    destruct Hi as [-> | ->]; unfold selectTargetNode, bind, Math_random, ret;
      now rewrite Hget.
  - intros indexNode Hi Hpool.
    destruct Hi as [-> | ->]; unfold selectTargetNode, bind, Math_random, ret;
      rewrite Hpool; cbn [List.length Z.of_nat];
      unfold array_get; destruct (_ <? 0); [reflexivity | | reflexivity |];
      now destruct (Z.to_nat _).
Qed.

(** *** The rule synchroniser *)

Lemma mapM_new_valid (rs : list IndexingRule) :
  forall st,
    forallb valid (map identifier rs) = true ->
    mapM (fun rule => new_SubgraphDeploymentID valid hashOf (identifier rule)) rs st
    = (Ret (fresh_objects hashOf (nextOid st) rs),
       mkState (trace st) (rules st) (nextOid st + List.length rs) (draws st)).
Proof.
  induction rs as [|r rs IH]; intros st Hv.
  - cbn. rewrite Nat.add_0_r. now destruct st.
  - cbn [map forallb] in Hv. apply andb_true_iff in Hv as [Hr Hrs].
    cbn [mapM]. unfold bind at 1. unfold new_SubgraphDeploymentID at 1. rewrite Hr.
    unfold bind at 1. rewrite IH by exact Hrs.
    cbn [trace rules nextOid draws fresh_objects List.length ret].
    unfold ret. now rewrite Nat.add_succ_r.
Qed.

(** An object that existed before is none of the fresh ones. *)
Lemma fresh_objects_exclude (rs : list IndexingRule) :
  forall n d, (oid d < n)%nat -> array_includes_object (fresh_objects hashOf n rs) d = false.
Proof.
  induction rs as [|r rs IH]; intros n d Hd; [reflexivity |].
  cbn [fresh_objects array_includes_object existsb oid].
  replace (Nat.eqb n (oid d)) with false by (symmetry; apply Nat.eqb_neq; lia).
  apply IH. lia.
Qed.

(** [deploy] on a successful request: whatever the table holds, the
    default rule of the deployment is upserted. *)
Lemma deploy_succeeds
    (ensure_rec : string -> SubgraphDeploymentID -> option string -> Z -> M unit)
    (this : SubgraphManager) (name : string) (deployment : SubgraphDeploymentID)
    (indexNode : option string) (depth : Z) (st st1 : State) (target : option string) :
  selectTargetNode random this indexNode st = (Ret target, st1) ->
  remote (requests_of (trace st1)) (subgraph_deploy name (ipfsHash deployment) target)
    = Responded None ->
  forallb valid (map identifier (rules st1)) = true ->
  (oid deployment < nextOid st1)%nat ->
  deploy valid hashOf remote random ensure_rec this name deployment indexNode depth st =
  (Ret tt,
   mkState (EvUpsert (offchainIndexingRule deployment)
              :: EvLog INFO "Successfully deployed subgraph"
              :: trace (deploy_requested name deployment target st1))
           (upsert (offchainIndexingRule deployment) (rules st1))
           (nextOid st1 + List.length (rules st1))
           (draws st1)).
Proof.
  intros Hsel Hrem Hv Hd.
  unfold deploy. unfold bind at 1. rewrite Hsel.
  unfold try_catch. unfold bind at 1. unfold logger at 1, emit at 1.
  unfold bind at 1. unfold request. cbn [trace requests_of rules nextOid draws].
  rewrite Hrem. unfold bind at 1. unfold logger at 1, emit at 1.
  cbn [trace requests_of rules nextOid draws].
  unfold bind at 1. unfold fetchIndexingRules at 1. cbn [trace rules nextOid draws].
  unfold bind at 1. rewrite mapM_new_valid by exact Hv.
  cbn [trace rules nextOid draws].
  rewrite fresh_objects_exclude by exact Hd.
  reflexivity.
Qed.

(** *** Claims about the node used by the steps of [ensure] *)




(** *** What the methods raise *)

Lemma bind_throws {A B} (m : M A) (k : A -> M B) st e :
  fst (bind m k st) = Throw e ->
  fst (m st) = Throw e \/ exists a st', m st = (Ret a, st') /\ fst (k a st') = Throw e.
Proof.
  unfold bind. destruct (m st) as [[a|e0|] st']; cbn [fst]; intros H.
  - right. now exists a, st'.
  - left. injection H as <-. reflexivity.
  - discriminate.
Qed.

Lemma try_catch_throws {A} (body : M A) (handler : JsError -> M A) st e :
  fst (try_catch body handler st) = Throw e ->
  exists e0 st', body st = (Throw e0, st') /\ fst (handler e0 st') = Throw e.
Proof.
  unfold try_catch. destruct (body st) as [[a|e0|] st']; cbn [fst]; intros H;
    try discriminate.
  now exists e0, st'.
Qed.

Lemma logger_then_throw {A} l m e0 st :
  bind (logger l m) (fun _ => @throw A e0) st = (Throw e0, logged l m st).
Proof. reflexivity. Qed.

(** [createSubgraph] raises again whatever its request raised, the
    "already exists" answer of the endpoint included. *)
Lemma createSubgraph_raises_remote_error name st e :
  remote (requests_of (trace st)) (subgraph_create name) = Responded (Some e) ->
  fst (createSubgraph msgs remote name st) = Throw (Err e).
Proof.
  intros H. unfold createSubgraph, try_catch, bind, logger, emit, request.
  cbn [trace requests_of]. rewrite H. cbn [throw message].
  destruct (JsString.includes e "already exists"); reflexivity.
Qed.

Lemma createSubgraph_throws name st e :
  fst (createSubgraph msgs remote name st) = Throw e -> exists m, e = Err m.
Proof.
  unfold createSubgraph, try_catch, bind, logger, emit, request.
  cbn [trace requests_of].
  destruct (remote (requests_of (trace st)) (subgraph_create name)) as [m|[m|]];
    cbn [throw message]; try discriminate;
    destruct (JsString.includes m "already exists"); cbn [fst];
    intros H; injection H as <-; now exists m.
Qed.

Lemma deploy_throws ensure_rec this name deployment indexNode depth st e :
  fst (deploy valid hashOf remote random ensure_rec this name deployment indexNode depth st) = Throw e ->
  exists e0, e = IndexerError IE026 e0.
Proof.
  unfold deploy. intros H. apply bind_throws in H as [H | (t & st1 & _ & H)].
  - destruct (selectTargetNode_returns this indexNode st) as (t & s & E & _).
    rewrite E in H. discriminate.
  - apply try_catch_throws in H as (e0 & st' & _ & H).
    rewrite logger_then_throw in H. injection H as <-. now exists e0.
Qed.

Lemma reassign_throws this deployment indexNode st e :
  fst (reassign msgs remote random this deployment indexNode st) = Throw e ->
  (exists m, e = Err m) \/ (exists e0, e = IndexerError IE028 e0).
Proof.
  unfold reassign. intros H. apply bind_throws in H as [H | (t & st1 & _ & H)].
  - destruct (selectTargetNode_returns this indexNode st) as (t & s & E & _).
    rewrite E in H. discriminate.
  - apply try_catch_throws in H as (e0 & st' & Hb & H).
    assert (Hplain : exists m, e0 = Err m).
    { revert Hb. unfold bind, logger, emit, request. cbn [trace requests_of].
      destruct (remote _ _) as [m|[m|]]; cbn [throw]; intros Hb;
        try discriminate; injection Hb as <- _; now exists m. }
    destruct (JsString.includes (message msgs e0) "unchanged");
      rewrite logger_then_throw in H; injection H as <-.
    + now left.
    + right. now exists e0.
Qed.

(** Whatever [ensure] raises is what one of its steps raised: its
    outermost category is never IE020. *)
Lemma ensure_raises_unwrapped fuel this name deployment indexNode depth st e :
  fst (ensure valid hashOf msgs remote random fuel this name deployment indexNode depth st) = Throw e ->
  category e <> Some IE020.
Proof.
  destruct fuel as [|fuel]; cbn [ensure]; [discriminate |].
  intros H. apply bind_throws in H as [H | (u & st1 & _ & H)]; [discriminate |].
  apply try_catch_throws in H as (e0 & st' & Hb & H).
  rewrite logger_then_throw in H. injection H as <-.
  apply (f_equal fst) in Hb. cbn [fst] in Hb.
  apply bind_throws in Hb as [Hc | (u1 & st2 & _ & Hr)].
  - apply createSubgraph_throws in Hc as [m ->]. discriminate.
  - apply bind_throws in Hr as [Hd | (u2 & st3 & _ & Hr)].
    + apply deploy_throws in Hd as [e1 ->]. discriminate.
    + apply reassign_throws in Hr as [[m ->] | [e1 ->]]; discriminate.
Qed.

(** *** Teardown: [remove] *)

Lemma filter_without_match (id : string) (table : list IndexingRule) :
  find (fun r => String.eqb (identifier r) id) table = None ->
  filter (fun r => negb (String.eqb (identifier r) id)) table = table.
Proof.
  induction table as [|r table IH]; cbn [find filter]; [reflexivity |].
  destruct (String.eqb (identifier r) id); [discriminate |].
  intros H. cbn [negb]. now rewrite IH.
Qed.

(** What [remove] leaves of the rule table, by the answer of the
    endpoint. *)
Lemma remove_rules (deployment : SubgraphDeploymentID) (st : State) :
  rules (snd (remove remote deployment st))
  = match remote (requests_of (trace st))
            (subgraph_reassign (Some "removed") (ipfsHash deployment)) with
    | Responded None =>
        filter (fun r => negb (String.eqb (identifier r) (ipfsHash deployment))) (rules st)
    | _ => rules st
    end.
Proof.
  unfold remove, try_catch, bind, logger, emit, request, findOne, destroy, throw, ret.
  cbn [trace requests_of rules nextOid draws].
  destruct (remote _ _) as [m|[m|]]; cbn [rules snd]; try reflexivity.
  match goal with |- context [find ?f ?l] => destruct (find f l) eqn:E end;
    cbn [rules snd]; [reflexivity |].
  symmetry. now apply filter_without_match.
Qed.

(** [remove] never raises: whatever the endpoint answers, it returns,
    having sent exactly one request, the reassignment of the deployment
    to the node "removed". *)
Theorem remove_swallows_failures (deployment : SubgraphDeploymentID) (st : State) :
  fst (remove remote deployment st) = Ret tt
  /\ requests_of (trace (snd (remove remote deployment st)))
     = subgraph_reassign (Some "removed") (ipfsHash deployment) :: requests_of (trace st).
Proof.
  unfold remove, try_catch, bind, logger, emit, request, findOne, destroy, throw, ret.
  cbn [trace requests_of rules nextOid draws].
  destruct (remote _ _) as [m|[m|]]; cbn [fst snd trace requests_of].
  - now split.
  - now split.
  - match goal with |- context [find ?f ?l] => destruct (find f l) end;
      cbn [fst snd trace requests_of]; now split.
Qed.

(** When the endpoint accepts the unassignment, [remove] deletes the
    rules of the deployment and no other: a rule is in the table
    afterwards exactly when it was there before and its identifier is not
    the hash of the deployment. *)
Theorem remove_deletes_rules_of_deployment (deployment : SubgraphDeploymentID)
    (st : State) (r : IndexingRule) :
  remote (requests_of (trace st)) (subgraph_reassign (Some "removed") (ipfsHash deployment))
    = Responded None ->
  (In r (rules (snd (remove remote deployment st)))
   <-> In r (rules st) /\ identifier r <> ipfsHash deployment)
  /\ findOne (ipfsHash deployment) (snd (remove remote deployment st))
     = (Ret None, snd (remove remote deployment st)).
Proof.
  intros H. rewrite remove_rules, H. split.
  - rewrite filter_In. split; intros [Hin Hid]; (split; [exact Hin |]).
    + intros E. rewrite E, String.eqb_refl in Hid. discriminate.
    + apply negb_true_iff, String.eqb_neq. exact Hid.
  - unfold findOne. rewrite remove_rules, H. f_equal. f_equal.
    induction (rules st) as [|x table IH]; cbn [filter find]; [reflexivity |].
    destruct (String.eqb (identifier x) (ipfsHash deployment)) eqn:E; cbn [negb find].
    + exact IH.
    + rewrite E. exact IH.
Qed.

(** When the unassignment fails, by an error answer or a rejected
    request, [remove] leaves the rule table as it was. *)
Theorem remove_failure_keeps_rules (deployment : SubgraphDeploymentID) (st : State) :
  remote (requests_of (trace st)) (subgraph_reassign (Some "removed") (ipfsHash deployment))
    <> Responded None ->
  rules (snd (remove remote deployment st)) = rules st.
Proof.
  intros H. rewrite remove_rules.
  destruct (remote _ _) as [m|[m|]]; try reflexivity. now contradiction H.
Qed.

(** *** Outcomes of [createSubgraph] and [reassign] *)

(** The run of [createSubgraph], by the answer of the endpoint. *)
Lemma createSubgraph_run (name : string) (st : State) :
  requests_of (trace (snd (createSubgraph msgs remote name st)))
  = subgraph_create name :: requests_of (trace st)
  /\ fst (createSubgraph msgs remote name st)
     = match remote (requests_of (trace st)) (subgraph_create name) with
       | Responded None => Ret tt
       | Responded (Some m) | Rejected m => Throw (Err m)
       end.
Proof.
  unfold createSubgraph, try_catch, bind, logger, emit, request, throw.
  cbn [trace requests_of rules nextOid draws].
  destruct (remote _ _) as [m|[m|]]; cbn [message]; try (split; reflexivity);
    destruct (JsString.includes m "already exists"); split; reflexivity.
Qed.

(** The run of [reassign], by the answer of the endpoint. *)
Lemma reassign_run (this : SubgraphManager) (deployment : SubgraphDeploymentID)
    (indexNode : option string) (st st1 : State) (target : option string) :
  selectTargetNode random this indexNode st = (Ret target, st1) ->
  requests_of (trace (snd (reassign msgs remote random this deployment indexNode st)))
  = subgraph_reassign target (ipfsHash deployment) :: requests_of (trace st)
  /\ fst (reassign msgs remote random this deployment indexNode st)
     = match remote (requests_of (trace st1))
               (subgraph_reassign target (ipfsHash deployment)) with
       | Responded None => Ret tt
       | Responded (Some m) | Rejected m =>
           if JsString.includes m "unchanged" then Throw (Err m)
           else Throw (IndexerError IE028 (Err m))
       end.
Proof.
  intros Hsel.
  destruct (selectTargetNode_returns this indexNode st) as (t & s & E & Hr & _).
  rewrite Hsel in E. injection E as <- <-.
  unfold reassign, bind. rewrite Hsel.
  unfold try_catch, logger, emit, request, throw, ret.
  cbn [trace requests_of rules nextOid draws].
  destruct (remote _ _) as [m|[m|]]; cbn [message];
    try destruct (JsString.includes m "unchanged");
    cbn [fst snd trace requests_of]; rewrite Hr; split; reflexivity.
Qed.

(** *** Outcomes of [deploy] *)

(** Whatever [deploy] raises is an IE026 error: the catch block wraps
    every failure of the try block, the failures of the nested [ensure]
    calls and the IE069 signal included. *)
Theorem deploy_raises_only_IE026 ensure_rec this name deployment indexNode depth st e :
  fst (deploy valid hashOf remote random ensure_rec this name deployment indexNode depth st) = Throw e ->
  category e = Some IE026.
Proof. intros H. apply deploy_throws in H as [e0 ->]. reflexivity. Qed.

(** A deploy request that is rejected (transport failure, timeout), or
    answered with an error whose message lacks the graft-base
    signature, makes [deploy] raise IE026 at once, at every depth and
    for every depth ceiling: no identity is built and no [ensure] is
    entered.  The rejection is the direct cause; the error answer is
    wrapped twice. *)
Theorem deploy_fails_without_resolution
    (ensure_rec : string -> SubgraphDeploymentID -> option string -> Z -> M unit)
    (this : SubgraphManager) (name : string) (deployment : SubgraphDeploymentID)
    (indexNode : option string) (depth : Z) (st st1 : State) (target : option string) :
  selectTargetNode random this indexNode st = (Ret target, st1) ->
  (forall m,
      remote (requests_of (trace st1)) (subgraph_deploy name (ipfsHash deployment) target)
        = Rejected m ->
      deploy valid hashOf remote random ensure_rec this name deployment indexNode depth st
      = (Throw (IndexerError IE026 (Err m)),
         deploy_failed (deploy_requested name deployment target st1)))
  /\
  (forall msg,
      remote (requests_of (trace st1)) (subgraph_deploy name (ipfsHash deployment) target)
        = Responded (Some msg) ->
      JsString.includes msg graftSignature = false ->
      deploy valid hashOf remote random ensure_rec this name deployment indexNode depth st
      = (Throw (IndexerError IE026 (IndexerError IE026 (Err msg))),
         deploy_failed (deploy_requested name deployment target st1))).
Proof.
  intros Hsel. split.
  - intros m Hrem. unfold deploy. unfold bind at 1. rewrite Hsel.
    unfold try_catch. unfold bind at 1. unfold logger at 1, emit at 1.
    unfold bind at 1. unfold request. cbn [trace requests_of rules nextOid draws].
    rewrite Hrem. reflexivity.
  - intros msg Hrem Hsig.
    apply (deploy_unresolved ensure_rec this name deployment indexNode depth st st1
             (deploy_requested name deployment target st1) target msg Hsel Hrem).
    now apply graftBase_without_signature.
Qed.

Lemma grows_by_nothing st st' :
  grows_by (fun _ => False) st st' -> trace st' = trace st.
Proof.
  intros [evs [H F]]. destruct evs as [|e evs]; [exact H |].
  inversion F as [|? ? Hfalse]. contradiction.
Qed.

Lemma mapM_new_trace (rs : list IndexingRule) st :
  trace (snd (mapM (fun rule => new_SubgraphDeploymentID valid hashOf (identifier rule)) rs st))
  = trace st.
Proof.
  apply grows_by_nothing.
  apply (respects_mapM (fun _ => False)). intros a. apply respects_new.
Qed.

(** What a returning [deploy] has done. *)
Lemma deploy_return_inv
    (ensure_rec : string -> SubgraphDeploymentID -> option string -> Z -> M unit)
    (this : SubgraphManager) (name : string) (deployment : SubgraphDeploymentID)
    (indexNode : option string) (depth : Z) (st st1 st' : State) (target : option string) :
  selectTargetNode random this indexNode st = (Ret target, st1) ->
  deploy valid hashOf remote random ensure_rec this name deployment indexNode depth st = (Ret tt, st') ->
  remote (requests_of (trace st1)) (subgraph_deploy name (ipfsHash deployment) target)
    = Responded None
  /\ requests_of (trace st')
     = subgraph_deploy name (ipfsHash deployment) target :: requests_of (trace st)
  /\ ensure_calls (trace st') = ensure_calls (trace st).
Proof.
  intros Hsel.
  destruct (selectTargetNode_returns this indexNode st) as (t & s & E & Hr & Hc & _).
  rewrite Hsel in E. injection E as <- <-.
  unfold deploy. unfold bind at 1. rewrite Hsel.
  unfold try_catch. unfold bind at 1. unfold logger at 1, emit at 1.
  unfold bind at 1. unfold request. cbn [trace requests_of rules nextOid draws].
  destruct (remote _ _) as [m|[msg|]].
  - cbn. discriminate.
  - unfold bind at 1.
    destruct (graftBase valid hashOf this msg depth _) as [[[b|]|e|] sg]; try (cbn; discriminate).
    unfold bind at 1. unfold logger at 1, emit at 1. unfold bind at 1.
    destruct (ensure_rec name b target (depth + 1) _) as [[[]|e|] s3]; try (cbn; discriminate).
    unfold bind at 1.
    destruct (ensure_rec name deployment target depth s3) as [[[]|e|] s4]; cbn; discriminate.
  - unfold bind at 1. unfold logger at 1, emit at 1.
    unfold bind at 1. unfold fetchIndexingRules at 1.
    cbn [trace requests_of rules nextOid draws].
    unfold bind at 1.
    match goal with |- context [mapM ?f ?l ?s0] =>
      pose proof (mapM_new_trace l s0) as Ht; destruct (mapM f l s0) as [[objs|e|] sm] end;
      try (cbn; discriminate).
    cbn [snd trace] in Ht.
    destruct (negb (array_includes_object objs deployment)).
    + unfold upsertIndexingRule. intros H. injection H as <-.
      cbn [trace requests_of ensure_calls]. rewrite Ht.
      cbn [trace requests_of ensure_calls]. rewrite Hr, Hc. now repeat split.
    + unfold ret. intros H. injection H as <-. rewrite Ht.
      cbn [trace requests_of ensure_calls]. rewrite Hr, Hc. now repeat split.
Qed.

(** *** Outcomes of [ensure] *)

Lemma bind_returns {A B} (m : M A) (k : A -> M B) st b st2 :
  bind m k st = (Ret b, st2) ->
  exists a st1, m st = (Ret a, st1) /\ k a st1 = (Ret b, st2).
Proof.
  unfold bind. destruct (m st) as [[a|e|] st1]; intros H; try discriminate.
  now exists a, st1.
Qed.

Lemma try_catch_returns {A} (body : M A) (handler : JsError -> M A) st b st2 :
  try_catch body handler st = (Ret b, st2) ->
  body st = (Ret b, st2)
  \/ exists e st1, body st = (Throw e, st1) /\ handler e st1 = (Ret b, st2).
Proof.
  unfold try_catch. destruct (body st) as [[a|e|] st1]; intros H; try discriminate.
  - now left.
  - right. now exists e, st1.
Qed.

Lemma ensure_calls_none (evs : list Event) :
  Forall not_ensure evs -> ensure_calls evs = [].
Proof.
  induction evs as [|e evs IH]; intros F; [reflexivity |].
  inversion F as [|? ? He Hevs]; subst.
  destruct e; cbn [ensure_calls]; try (now apply IH). destruct He.
Qed.

Lemma grows_by_no_ensure st st' :
  grows_by not_ensure st st' -> ensure_calls (trace st') = ensure_calls (trace st).
Proof.
  intros [evs [H F]]. rewrite H, ensure_calls_app.
  now rewrite (ensure_calls_none evs F).
Qed.

(** The error [ensure] raises is one its steps raised: a plain error
    (from [createSubgraph], or the "unchanged" answer to [reassign]), an
    IE026 error (from [deploy]) or an IE028 error (from [reassign]). *)
Theorem ensure_raises_one_of fuel this name deployment indexNode depth st e :
  fst (ensure valid hashOf msgs remote random fuel this name deployment indexNode depth st) = Throw e ->
  (exists m, e = Err m) \/ category e = Some IE026 \/ category e = Some IE028.
Proof.
  destruct fuel as [|fuel]; cbn [ensure]; [discriminate |].
  intros H. apply bind_throws in H as [H | (u & st1 & _ & H)]; [discriminate |].
  apply try_catch_throws in H as (e0 & st' & Hb & H).
  rewrite logger_then_throw in H. injection H as <-.
  apply (f_equal fst) in Hb. cbn [fst] in Hb.
  apply bind_throws in Hb as [Hc | (u1 & st2 & _ & Hr)].
  - left. now apply createSubgraph_throws in Hc.
  - apply bind_throws in Hr as [Hd | (u2 & st3 & _ & Hr)].
    + right. left. apply deploy_throws in Hd as [e1 ->]. reflexivity.
    + apply reassign_throws in Hr as [Hm | [e1 ->]]; [now left | right; right; reflexivity].
Qed.

(** An [ensure] that returns has not resolved any graft base: it sent
    exactly three requests, create, deploy and reassign in this order,
    and entered no nested [ensure]. *)
Theorem ensure_returns_without_resolution fuel this name deployment indexNode depth st st' :
  ensure valid hashOf msgs remote random fuel this name deployment indexNode depth st = (Ret tt, st') ->
  exists t1 t2,
    requests_of (trace st')
    = subgraph_reassign t2 (ipfsHash deployment)
        :: subgraph_deploy name (ipfsHash deployment) t1
        :: subgraph_create name
        :: requests_of (trace st)
    /\ ensure_calls (trace st')
       = (name, ipfsHash deployment, indexNode, match depth with Some d => d | None => 0 end)
           :: ensure_calls (trace st).
Proof.
  destruct fuel as [|fuel]; cbn [ensure]; [discriminate |].
  intros H. apply bind_returns in H as ([] & sa & Ha & H).
  unfold emit in Ha. injection Ha as <-.
  apply try_catch_returns in H as [H | (e & s1 & _ & H)];
    [| rewrite logger_then_throw in H; discriminate].
  apply bind_returns in H as ([] & sb & Hcreate & H).
  apply bind_returns in H as ([] & sc & Hdeploy & Hreassign).
  pose proof (createSubgraph_run name
                (mkState (EvEnsure name (ipfsHash deployment) indexNode
                            (match depth with Some d => d | None => 0 end) :: trace st)
                   (rules st) (nextOid st) (draws st))) as [Hc1 _].
  pose proof (respects_createSubgraph not_ensure name
                (fun _ _ => Logic.I) Logic.I
                (mkState (EvEnsure name (ipfsHash deployment) indexNode
                            (match depth with Some d => d | None => 0 end) :: trace st)
                   (rules st) (nextOid st) (draws st))) as Hc2.
  rewrite Hcreate in Hc1, Hc2. cbn [snd trace requests_of] in Hc1.
  apply grows_by_no_ensure in Hc2. cbn [snd trace ensure_calls] in Hc2.
  destruct (selectTargetNode_returns this indexNode sb) as (t1 & sb1 & Hsel1 & _).
  destruct (deploy_return_inv _ this name deployment indexNode _ sb sb1 sc t1
              Hsel1 Hdeploy) as (_ & Hd1 & Hd2).
  destruct (selectTargetNode_returns this indexNode sc) as (t2 & sc1 & Hsel2 & _).
  destruct (reassign_run this deployment indexNode sc sc1 t2 Hsel2) as [Hr1 _].
  pose proof (respects_reassign not_ensure (fun _ => True) this
                (fun _ _ => Logic.I) (fun _ _ _ => Logic.I) (fun _ _ _ _ _ _ => Logic.I)
                deployment indexNode Logic.I sc) as Hr2.
  rewrite Hreassign in Hr1, Hr2. cbn [snd] in Hr1, Hr2.
  apply grows_by_no_ensure in Hr2.
  exists t1, t2. split.
  - rewrite Hr1, Hd1, Hc1. reflexivity.
  - rewrite Hr2, Hd2, Hc2. reflexivity.
Qed.

Lemma selectTargetNode_upserts this indexNode st target st1 :
  selectTargetNode random this indexNode st = (Ret target, st1) ->
  upserts_of (trace st1) = upserts_of (trace st).
Proof.
  unfold selectTargetNode. destruct indexNode as [[|c n]|].
  - intros H. injection H as _ <-. reflexivity.
  - unfold bind, logger, emit, ret. destruct (negb _); intros H; injection H as _ <-; reflexivity.
  - intros H. injection H as _ <-. reflexivity.
Qed.

Lemma createSubgraph_succeeds name st :
  remote (requests_of (trace st)) (subgraph_create name) = Responded None ->
  createSubgraph msgs remote name st
  = (Ret tt,
     logged INFO "Successfully created subgraph name"
       (emitted (EvRequest (subgraph_create name)) (logged INFO "Create subgraph name" st))).
Proof.
  intros H. unfold createSubgraph, try_catch, bind, logger, emit, request.
  cbn [trace requests_of rules nextOid draws]. rewrite H. reflexivity.
Qed.

Lemma reassign_succeeds this deployment indexNode st st1 target :
  selectTargetNode random this indexNode st = (Ret target, st1) ->
  remote (requests_of (trace st1)) (subgraph_reassign target (ipfsHash deployment))
    = Responded None ->
  reassign msgs remote random this deployment indexNode st
  = (Ret tt,
     emitted (EvRequest (subgraph_reassign target (ipfsHash deployment)))
       (logged INFO "Reassign subgraph deployment" st1)).
Proof.
  intros Hsel H. unfold reassign, bind. rewrite Hsel.
  unfold try_catch, logger, emit, request, ret.
  cbn [trace requests_of rules nextOid draws]. rewrite H. reflexivity.
Qed.

Lemma filter_upsert (r : IndexingRule) (table : list IndexingRule) :
  filter (fun x => negb (String.eqb (identifier x) (identifier r))) (upsert r table)
  = filter (fun x => negb (String.eqb (identifier x) (identifier r))) table.
Proof.
  induction table as [|x table IH]; cbn [upsert filter].
  - now rewrite String.eqb_refl.
  - destruct (String.eqb (identifier x) (identifier r)) eqn:E; cbn [filter negb].
    + now rewrite String.eqb_refl.
    + rewrite E. cbn [negb]. now rewrite IH.
Qed.

(** The run of [ensure] when its three requests are accepted. *)
Lemma ensure_run_ok (fuel : nat) (this : SubgraphManager) (name : string)
    (deployment : SubgraphDeploymentID) (indexNode : option string) (depth : option Z)
    (st : State) :
  (forall history, remote history (subgraph_create name) = Responded None) ->
  (forall history node,
      remote history (subgraph_deploy name (ipfsHash deployment) node) = Responded None) ->
  (forall history node,
      remote history (subgraph_reassign node (ipfsHash deployment)) = Responded None) ->
  forallb valid (map identifier (rules st)) = true ->
  (oid deployment < nextOid st)%nat ->
  exists t1 t2 st',
    ensure valid hashOf msgs remote random (S fuel) this name deployment indexNode depth st
    = (Ret tt, st')
    /\ requests_of (trace st')
       = subgraph_reassign t2 (ipfsHash deployment)
           :: subgraph_deploy name (ipfsHash deployment) t1
           :: subgraph_create name
           :: requests_of (trace st)
    /\ upserts_of (trace st') = offchainIndexingRule deployment :: upserts_of (trace st)
    /\ rules st' = upsert (offchainIndexingRule deployment) (rules st).
Proof.
  intros Hcreate Hdeploy Hreassign Hv Hd.
  set (d := match depth with Some d => d | None => 0 end).
  set (sa := emitted (EvEnsure name (ipfsHash deployment) indexNode d) st).
  set (sb := logged INFO "Successfully created subgraph name"
               (emitted (EvRequest (subgraph_create name))
                  (logged INFO "Create subgraph name" sa))).
  destruct (selectTargetNode_returns this indexNode sb)
    as (t1 & sb1 & Hsel1 & Hr1 & _ & Hrules1 & Hoid1 & _).
  pose proof (selectTargetNode_upserts this indexNode sb t1 sb1 Hsel1) as Hu1.
  set (sc := mkState (EvUpsert (offchainIndexingRule deployment)
                        :: EvLog INFO "Successfully deployed subgraph"
                        :: trace (deploy_requested name deployment t1 sb1))
                     (upsert (offchainIndexingRule deployment) (rules sb1))
                     (nextOid sb1 + List.length (rules sb1)) (draws sb1)).
  destruct (selectTargetNode_returns this indexNode sc)
    as (t2 & sc1 & Hsel2 & Hr2 & _ & Hrules2 & _).
  pose proof (selectTargetNode_upserts this indexNode sc t2 sc1 Hsel2) as Hu2.
  exists t1, t2,
    (emitted (EvRequest (subgraph_reassign t2 (ipfsHash deployment)))
       (logged INFO "Reassign subgraph deployment" sc1)).
  split; [| split; [| split]].
  - cbn [ensure]. fold d. unfold bind at 1, emit at 1. fold (emitted (EvEnsure name (ipfsHash deployment) indexNode d) st). fold sa.
    unfold try_catch at 1. unfold bind at 1.
    rewrite (createSubgraph_succeeds name sa (Hcreate _)). fold sb.
    unfold bind at 1.
    rewrite (deploy_succeeds _ this name deployment indexNode d sb sb1 t1 Hsel1 (Hdeploy _ _)).
    + fold sc. now rewrite (reassign_succeeds this deployment indexNode sc sc1 t2 Hsel2 (Hreassign _ _)).
    + now rewrite Hrules1.
    + now rewrite Hoid1.
  - cbn [emitted logged trace requests_of]. rewrite Hr2.
    subst sc. cbn [trace requests_of deploy_requested emitted logged]. rewrite Hr1.
    reflexivity.
  - cbn [emitted logged trace upserts_of]. rewrite Hu2.
    subst sc. cbn [trace upserts_of deploy_requested emitted logged]. rewrite Hu1.
    reflexivity.
  - cbn [emitted logged rules]. rewrite Hrules2. subst sc. cbn [rules]. now rewrite Hrules1.
Qed.

(** Deploying and then removing a deployment on an endpoint that answers
    every request without error leaves no rule of the deployment: the
    table is the one before with the rules of the deployment deleted,
    and a table that had no rule for the deployment is back as it was. *)
Theorem ensure_then_remove (fuel : nat) (this : SubgraphManager) (name : string)
    (deployment : SubgraphDeploymentID) (indexNode : option string) (depth : option Z)
    (st : State) :
  (forall history r, remote history r = Responded None) ->
  forallb valid (map identifier (rules st)) = true ->
  (oid deployment < nextOid st)%nat ->
  let ensured :=
    snd (ensure valid hashOf msgs remote random (S fuel) this name deployment indexNode depth st) in
  rules (snd (remove remote deployment ensured))
  = filter (fun r => negb (String.eqb (identifier r) (ipfsHash deployment))) (rules st)
  /\ (find (fun r => String.eqb (identifier r) (ipfsHash deployment)) (rules st) = None ->
      rules (snd (remove remote deployment ensured)) = rules st).
Proof.
  intros Hok Hv Hd ensured.
  destruct (ensure_run_ok fuel this name deployment indexNode depth st
              (fun h => Hok h _) (fun h node => Hok h _) (fun h node => Hok h _) Hv Hd)
    as (t1 & t2 & st' & E & _ & _ & Hrules).
  assert (Hfilter : rules (snd (remove remote deployment ensured))
                    = filter (fun r => negb (String.eqb (identifier r) (ipfsHash deployment)))
                        (rules st)).
  { subst ensured. rewrite E. cbn [snd]. rewrite remove_rules, Hok, Hrules.
    apply (filter_upsert (offchainIndexingRule deployment)). }
  split; [exact Hfilter |].
  intros Hnone. rewrite Hfilter. now apply filter_without_match.
Qed.

(** *** Invariants of the calls of [ensure] *)

Lemma graftBase_resolves_below_ceiling this msg depth st b st' :
  graftBase valid hashOf this msg depth st = (Ret (Some b), st') ->
  depth < autoGraftResolverDepth this.
Proof.
  unfold graftBase. destruct (JsString.includes msg graftSignature); [| discriminate].
  destruct (depth >=? autoGraftResolverDepth this) eqn:E; [discriminate |].
  intros _. rewrite Z.geb_leb in E. apply Z.leb_gt in E. exact E.
Qed.

Lemma ensure_default_depth fuel this name deployment indexNode :
  ensure valid hashOf msgs remote random fuel this name deployment indexNode None
  = ensure valid hashOf msgs remote random fuel this name deployment indexNode (Some 0).
Proof. destruct fuel; reflexivity. Qed.

(** A property [J] of the name and the depth of a call that the two
    nested calls of [deploy] keep, and a predicate [P] that admits every
    event of a call with [J]: then [P] holds of every event of an
    [ensure] started with [J]. *)
Section CallInvariant.

Variable P : Event -> Prop.
Variable J : string -> Z -> Prop.
Variable this : SubgraphManager.

Hypothesis P_logs : admits_logs P.
Hypothesis P_upsert : forall rule, P (EvUpsert rule).
Hypothesis P_create : forall n d, J n d -> P (EvRequest (subgraph_create n)).
Hypothesis P_deploy : forall n d hash node,
    J n d -> P (EvRequest (subgraph_deploy n hash node)).
Hypothesis P_reassign : forall hash node, P (EvRequest (subgraph_reassign node hash)).
Hypothesis P_ensure : forall n d hash node, J n d -> P (EvEnsure n hash node d).
Hypothesis J_base : forall n d,
    J n d -> d < autoGraftResolverDepth this -> J n (d + 1).

Lemma invariant_deploy ensure_rec name deployment indexNode depth :
  J name depth ->
  (forall b node k, J name k -> respects P (ensure_rec name b node k)) ->
  respects P (deploy valid hashOf remote random ensure_rec this name deployment indexNode depth).
Proof.
  intros Hj Hrec. unfold deploy.
  apply respects_bind; [now apply respects_selectTargetNode | intros target].
  apply respects_try_catch.
  - apply respects_bind; [now apply respects_logger | intros _].
    apply respects_bind; [apply respects_request; now apply (P_deploy _ depth) | intros [e|]].
    + apply (respects_bind_val P
               (fun a => match a with Some _ => depth < autoGraftResolverDepth this
                                 | None => True end)).
      * now apply respects_graftBase.
      * intros st [b|] st' H; [| exact Logic.I].
        now apply graftBase_resolves_below_ceiling in H.
      * intros [b|] Hb; [| apply respects_throw].
        apply respects_bind; [now apply respects_logger | intros _].
        apply respects_bind; [apply Hrec; now apply J_base | intros _].
        apply respects_bind; [now apply Hrec | intros _].
        apply respects_throw.
    + apply respects_bind; [now apply respects_logger | intros _].
      apply respects_bind; [apply respects_fetch | intros fetched].
      apply respects_bind; [apply respects_mapM; intros; apply respects_new | intros objs].
      destruct (negb _); [apply respects_upsert, P_upsert | apply respects_ret].
  - intros e. apply respects_bind; [now apply respects_logger | intros _].
    apply respects_throw.
Qed.

Lemma invariant_ensure fuel :
  forall name deployment indexNode d,
    J name d ->
    respects P (ensure valid hashOf msgs remote random fuel this name deployment indexNode (Some d)).
Proof.
  induction fuel as [|fuel IH]; intros name deployment indexNode d Hj; cbn [ensure].
  - apply respects_out_of_fuel.
  - apply respects_bind; [now apply respects_emit, P_ensure | intros _].
    apply respects_try_catch.
    + apply respects_bind;
        [apply respects_createSubgraph; [exact P_logs | now apply (P_create _ d)] | intros _].
      apply respects_bind.
      * apply invariant_deploy; [exact Hj |]. intros b node k Hk. now apply IH.
      * intros _.
        apply (respects_reassign P (fun _ => True) this P_logs
                 (fun hash node _ => P_reassign hash node) (fun _ _ _ _ _ _ => Logic.I)
                 deployment indexNode Logic.I).
    + intros e. apply respects_bind; [now apply respects_logger | intros _].
      apply respects_throw.
Qed.

End CallInvariant.

(** The graft recursion stays under the ceiling: every [ensure] entered
    in a run started at depth [d], the run itself included, has a depth
    between [d] and the larger of [d] and [autoGraftResolverDepth]. *)
Theorem ensure_depth_bounded (fuel : nat) (this : SubgraphManager) (name : string)
    (deployment : SubgraphDeploymentID) (indexNode : option string) (d : Z) (st : State) :
  exists evs,
    trace (snd (ensure valid hashOf msgs remote random fuel this name deployment indexNode (Some d) st))
    = (evs ++ trace st)%list
    /\ Forall (depth_within d (Z.max d (autoGraftResolverDepth this))) evs.
Proof.
  apply (invariant_ensure
           (depth_within d (Z.max d (autoGraftResolverDepth this)))
           (fun _ k => d <= k <= Z.max d (autoGraftResolverDepth this)) this);
    try (unfold admits_logs; intros; exact Logic.I).
  - intros n k hash node Hk. exact Hk.
  - intros n k Hk Hlt. lia.
  - lia.
Qed.

(** One name throughout: every [subgraph_create] and [subgraph_deploy]
    request of a run of [ensure], and every nested [ensure], carries the
    subgraph name the run was started with; the graft base is registered
    and deployed under the name of the deployment that needs it. *)
Theorem ensure_keeps_name (fuel : nat) (this : SubgraphManager) (name : string)
    (deployment : SubgraphDeploymentID) (indexNode : option string) (depth : option Z)
    (st : State) :
  exists evs,
    trace (snd (ensure valid hashOf msgs remote random fuel this name deployment indexNode depth st))
    = (evs ++ trace st)%list
    /\ Forall (uses_name name) evs.
Proof.
  assert (H : forall d,
             respects (uses_name name)
               (ensure valid hashOf msgs remote random fuel this name deployment indexNode (Some d))).
  { intros d.
    apply (invariant_ensure (uses_name name) (fun n _ => n = name) this);
      try (unfold admits_logs; intros; exact Logic.I); try (cbn; congruence). }
  destruct depth as [d|]; [apply H |].
  rewrite ensure_default_depth. apply H.
Qed.

(** *** A retry that never ends *)

Lemma forallb_valid_upsert (r : IndexingRule) (table : list IndexingRule) :
  valid (identifier r) = true ->
  forallb valid (map identifier table) = true ->
  forallb valid (map identifier (upsert r table)) = true.
Proof.
  intros Hr. induction table as [|x table IH]; cbn [upsert map forallb].
  - intros _. now rewrite Hr.
  - intros H. apply andb_true_iff in H as [Hx Ht].
    destruct (String.eqb (identifier x) (identifier r)); cbn [map forallb].
    + now rewrite Hr, Ht.
    + now rewrite Hx, IH.
Qed.

(** The depth ceiling does not bound the retries.  Let [B] be the hash
    of the identity [graftBase] builds from the token of the message.
    On an endpoint that answers every deploy of a deployment with the
    same graft-base failure, and accepts the deploy and the reassign of
    [B] and every [subgraph_create], an [ensure] started below the
    ceiling never comes back: [B] is ensured, the deployment is ensured
    again at the same depth, fails in the same way, and so on; the run
    exhausts any fuel. *)
Theorem ensure_retry_never_ends (this : SubgraphManager) (name : string)
    (deployment : SubgraphDeploymentID) (msg : string) :
  let B := hashOf (graftBaseQm msg) in
  JsString.includes msg graftSignature = true ->
  valid (graftBaseQm msg) = true ->
  valid B = true ->
  (forall history, remote history (subgraph_create name) = Responded None) ->
  (forall history node,
      remote history (subgraph_deploy name (ipfsHash deployment) node)
      = Responded (Some msg)) ->
  (forall history node,
      remote history (subgraph_deploy name B node) = Responded None) ->
  (forall history node,
      remote history (subgraph_reassign node B) = Responded None) ->
  forall fuel indexNode depth st,
    depth < autoGraftResolverDepth this ->
    forallb valid (map identifier (rules st)) = true ->
    fst (ensure valid hashOf msgs remote random fuel this name deployment indexNode (Some depth) st)
    = OutOfFuel.
Proof.
  intros B Hsig Hval HvalB Hcreate Hfail Hbase Hreassign.
  induction fuel as [|fuel IH]; intros indexNode depth st Hlt Hv; [reflexivity |].
  cbn [ensure]. unfold bind at 1, emit at 1. unfold try_catch at 1. unfold bind at 1.
  rewrite (createSubgraph_succeeds name _ (Hcreate _)). unfold bind at 1.
  match goal with |- context [deploy valid hashOf remote random ?rec this name deployment indexNode depth ?sb] =>
    destruct (selectTargetNode_returns this indexNode sb)
      as (t & sb1 & Hsel & _ & _ & Hrules & _);
    rewrite (deploy_resolves rec this name deployment indexNode depth sb sb1 t msg
               Hsel (Hfail _ _) Hsig Hlt Hval)
  end.
  destruct fuel as [|fuel']; [reflexivity |].
  fold B.
  destruct (ensure_run_ok fuel' this name
              (mkSubgraphDeploymentID (nextOid sb1) B) t (Some (depth + 1))
              (logged DEBUG "Found graft base deployment, ensure deployment and a matching offchain indexing rules"
                 (allocated (deploy_requested name deployment t sb1))))
    as (t1 & t2 & s3 & E & _ & _ & Hrules3).
  - exact Hcreate.
  - exact Hbase.
  - exact Hreassign.
  - cbn [logged allocated deploy_requested emitted rules]. rewrite Hrules. exact Hv.
  - cbn [logged allocated deploy_requested emitted nextOid oid]. lia.
  - rewrite E.
    assert (Hv3 : forallb valid (map identifier (rules s3)) = true).
    { rewrite Hrules3. apply forallb_valid_upsert; [exact HvalB |].
      cbn [logged allocated deploy_requested emitted rules]. rewrite Hrules. exact Hv. }
    specialize (IH t depth s3 Hlt Hv3).
    destruct (ensure valid hashOf msgs remote random (S fuel') this name deployment t (Some depth) s3)
      as [r4 s4].
    cbn [fst] in IH. subst r4. reflexivity.
Qed.

(** *** The token [graftBase] extracts *)

Lemma substring_length_le (s : string) :
  forall n m, (String.length (String.substring n m s) <= m)%nat.
Proof.
  induction s as [|c s IH]; intros n m.
  - destruct n, m; cbn; lia.
  - destruct n as [|n]; [destruct m as [|m] |]; cbn [String.substring String.length].
    + lia.
    + specialize (IH 0%nat m). lia.
    + apply IH.
Qed.

Lemma prefix_length (p s : string) :
  prefix p s = true -> (String.length p <= String.length s)%nat.
Proof.
  revert s. induction p as [|a p IH]; intros s H; cbn [String.length]; [lia |].
  destruct s as [|b s]; cbn [prefix] in H; [discriminate |].
  destruct (ascii_dec a b); [| discriminate]. apply IH in H. cbn [String.length]. lia.
Qed.

Lemma prefix_substring_head (p : string) :
  forall s m, prefix p s = true -> (String.length p <= m)%nat ->
              prefix p (String.substring 0 m s) = true.
Proof.
  induction p as [|a p IH]; intros s m H Hm;
    [now destruct (String.substring 0 m s) |].
  destruct s as [|b s]; cbn [prefix] in H; [discriminate |].
  destruct (ascii_dec a b) as [->|]; [| discriminate].
  destruct m as [|m]; cbn [String.length] in Hm; [lia |].
  cbn [String.substring prefix]. destruct (ascii_dec b b); [| congruence].
  apply IH; [exact H | lia].
Qed.

(** Where [indexOf] finds the needle, the needle is. *)
Lemma indexOf_from_found (needle s : string) :
  forall i,
    0 <= i ->
    JsString.indexOf_from needle s i = -1
    \/ (i <= JsString.indexOf_from needle s i
        /\ (Z.to_nat (JsString.indexOf_from needle s i - i) + String.length needle
            <= String.length s)%nat
        /\ forall m, (String.length needle <= m)%nat ->
                     prefix needle
                       (String.substring (Z.to_nat (JsString.indexOf_from needle s i - i)) m s)
                     = true).
Proof.
  induction s as [|c s IH]; intros i Hi; cbn [JsString.indexOf_from].
  - destruct (prefix needle "") eqn:E; [right | now left].
    rewrite Z.sub_diag. cbn [Z.to_nat]. split; [lia |]. split.
    + apply prefix_length in E. lia.
    + intros m Hm. now apply prefix_substring_head.
  - destruct (prefix needle (String c s)) eqn:E.
    + right. rewrite Z.sub_diag. cbn [Z.to_nat]. split; [lia |]. split.
      * apply prefix_length in E. lia.
      * intros m Hm. now apply prefix_substring_head.
    + destruct (IH (i + 1)) as [H | (Hle & Hlen & Hpre)]; [lia | now left | right].
      replace (Z.to_nat (JsString.indexOf_from needle s (i + 1) - i))
        with (S (Z.to_nat (JsString.indexOf_from needle s (i + 1) - (i + 1)))) by lia.
      split; [lia |]. split.
      * cbn [String.length]. lia.
      * intros m Hm. cbn [String.substring]. now apply Hpre.
Qed.

(** The token [graftBase] extracts is never longer than 46 characters,
    whatever the message; without a "Qm" in the message it has at most
    45. *)
Theorem graftBaseQm_length (msg : string) :
  (String.length (graftBaseQm msg)
   <= if (JsString.indexOf msg "Qm" =? -1)%Z then 45 else 46)%nat.
Proof.
  destruct (JsString.indexOf msg "Qm" =? -1) eqn:E.
  - apply Z.eqb_eq in E. rewrite (graftBaseQm_without_prefix msg E).
    unfold JsString.substring, JsString.clamp.
    match goal with |- (String.length (String.substring ?n ?m msg) <= _)%nat =>
      pose proof (substring_length_le msg n m) as H'; assert (m <= 45)%nat by lia end.
    lia.
  - unfold graftBaseQm, JsString.substring, JsString.clamp.
    match goal with |- (String.length (String.substring ?n ?m msg) <= _)%nat =>
      pose proof (substring_length_le msg n m) as H; assert (m <= 46)%nat by lia end.
    lia.
Qed.

(** When the message has a "Qm", the token [graftBase] extracts starts
    with it, however little of the message follows. *)
Theorem graftBaseQm_starts_with_prefix (msg : string) :
  JsString.indexOf msg "Qm" <> -1 ->
  prefix "Qm" (graftBaseQm msg) = true.
Proof.
  intros Hfound. unfold JsString.indexOf in Hfound.
  destruct (indexOf_from_found "Qm" msg 0) as [H | (Hle & Hlen & Hpre)];
    [lia | contradiction |].
  unfold graftBaseQm, JsString.substring, JsString.clamp, JsString.indexOf.
  rewrite Z.sub_0_r in Hlen, Hpre. cbn [String.length] in Hlen.
  set (k := JsString.indexOf_from "Qm" msg 0) in *.
  match goal with |- prefix _ (String.substring ?n ?m msg) = true =>
    replace n with (Z.to_nat k) by lia; apply Hpre; cbn [String.length]; lia end.
Qed.

(** *** Further outcomes *)

Lemma mapM_new_invalid (rs : list IndexingRule) :
  forall st,
    forallb valid (map identifier rs) = false ->
    exists r st',
      find (fun r => negb (valid (identifier r))) rs = Some r
      /\ mapM (fun rule => new_SubgraphDeploymentID valid hashOf (identifier rule)) rs st
         = (Throw (Err ("Invalid subgraph deployment ID: " ++ identifier r)), st')
      /\ trace st' = trace st /\ rules st' = rules st.
Proof.
  induction rs as [|x rs IH]; intros st H; cbn [map forallb] in H; [discriminate |].
  cbn [find mapM]. unfold bind at 1. unfold new_SubgraphDeploymentID at 1.
  destruct (valid (identifier x)) eqn:E; cbn [negb].
  - cbn [andb] in H.
    destruct (IH (mkState (trace st) (rules st) (S (nextOid st)) (draws st)) H)
      as (r & st' & Hfind & Hrun & Ht & Hr).
    exists r, st'. split; [exact Hfind |]. unfold bind at 1. rewrite Hrun. now repeat split.
  - exists x, st. now repeat split.
Qed.

(** A rule whose identifier the identity constructor rejects breaks
    [deploy] after the deployment went through: the request is answered
    without error, and still [deploy] raises IE026, carrying the
    constructor's error for the first such identifier, upserts
    nothing and leaves the table as it was. *)
Theorem deploy_fails_on_unparseable_rule
    (ensure_rec : string -> SubgraphDeploymentID -> option string -> Z -> M unit)
    (this : SubgraphManager) (name : string) (deployment : SubgraphDeploymentID)
    (indexNode : option string) (depth : Z) (st st1 : State) (target : option string) :
  selectTargetNode random this indexNode st = (Ret target, st1) ->
  remote (requests_of (trace st1)) (subgraph_deploy name (ipfsHash deployment) target)
    = Responded None ->
  forallb valid (map identifier (rules st)) = false ->
  exists r st',
    find (fun r => negb (valid (identifier r))) (rules st) = Some r
    /\ deploy valid hashOf remote random ensure_rec this name deployment indexNode depth st
       = (Throw (IndexerError IE026 (Err ("Invalid subgraph deployment ID: " ++ identifier r))),
          st')
    /\ rules st' = rules st
    /\ upserts_of (trace st') = upserts_of (trace st)
    /\ requests_of (trace st')
       = subgraph_deploy name (ipfsHash deployment) target :: requests_of (trace st).
Proof.
  intros Hsel Hrem Hv.
  destruct (selectTargetNode_returns this indexNode st) as (t & s & E & Hr & _ & Hrules & _).
  rewrite Hsel in E. injection E as <- <-.
  pose proof (selectTargetNode_upserts this indexNode st target st1 Hsel) as Hu.
  rewrite <- Hrules in Hv.
  destruct (mapM_new_invalid (rules st1)
              (mkState (EvLog INFO "Successfully deployed subgraph"
                          :: trace (deploy_requested name deployment target st1))
                       (rules st1) (nextOid st1) (draws st1)) Hv)
    as (r & sm & Hfind & Hrun & Ht & Hrs).
  exists r, (deploy_failed sm). split; [now rewrite <- Hrules |]. split.
  - unfold deploy. unfold bind at 1. rewrite Hsel.
    unfold try_catch. unfold bind at 1. unfold logger at 1, emit at 1.
    unfold bind at 1. unfold request. cbn [trace requests_of rules nextOid draws].
    rewrite Hrem. unfold bind at 1. unfold logger at 1, emit at 1.
    cbn [trace requests_of rules nextOid draws].
    unfold bind at 1. unfold fetchIndexingRules at 1. cbn [trace rules nextOid draws].
    unfold bind at 1.
    cbn [deploy_requested emitted logged trace] in Hrun. rewrite Hrun. reflexivity.
  - cbn [deploy_failed logged emitted rules trace upserts_of requests_of].
    rewrite Hrs, Ht. cbn [rules trace deploy_requested emitted logged upserts_of requests_of].
    now rewrite Hrules, Hu, Hr.
Qed.

Lemma reassign_unchanged this deployment indexNode st st1 target m :
  selectTargetNode random this indexNode st = (Ret target, st1) ->
  remote (requests_of (trace st1)) (subgraph_reassign target (ipfsHash deployment))
    = Responded (Some m) ->
  JsString.includes m "unchanged" = true ->
  reassign msgs remote random this deployment indexNode st
  = (Throw (Err m),
     logged DEBUG "Subgraph deployment assignment unchanged"
       (emitted (EvRequest (subgraph_reassign target (ipfsHash deployment)))
          (logged INFO "Reassign subgraph deployment" st1))).
Proof.
  intros Hsel H Hm. unfold reassign, bind. rewrite Hsel.
  unfold try_catch, logger, emit, request, throw.
  cbn [trace requests_of rules nextOid draws]. rewrite H. cbn [message]. rewrite Hm.
  reflexivity.
Qed.

(** An assignment that is already in place makes [ensure] fail.  When
    the create and deploy requests are answered without error and the
    reassign request with an error whose message contains "unchanged",
    [ensure] raises that error as it is, after the default rule of the
    deployment has been upserted. *)
Theorem ensure_raises_unchanged (fuel : nat) (this : SubgraphManager) (name : string)
    (deployment : SubgraphDeploymentID) (indexNode : option string) (depth : option Z)
    (st : State) (m : string) :
  (forall history, remote history (subgraph_create name) = Responded None) ->
  (forall history node,
      remote history (subgraph_deploy name (ipfsHash deployment) node) = Responded None) ->
  (forall history node,
      remote history (subgraph_reassign node (ipfsHash deployment)) = Responded (Some m)) ->
  JsString.includes m "unchanged" = true ->
  forallb valid (map identifier (rules st)) = true ->
  (oid deployment < nextOid st)%nat ->
  fst (ensure valid hashOf msgs remote random (S fuel) this name deployment indexNode depth st)
  = Throw (Err m)
  /\ rules (snd (ensure valid hashOf msgs remote random (S fuel) this name deployment indexNode depth st))
     = upsert (offchainIndexingRule deployment) (rules st).
Proof.
  intros Hcreate Hdeploy Hreassign Hm Hv Hd.
  set (d := match depth with Some d => d | None => 0 end).
  set (sa := emitted (EvEnsure name (ipfsHash deployment) indexNode d) st).
  set (sb := logged INFO "Successfully created subgraph name"
               (emitted (EvRequest (subgraph_create name))
                  (logged INFO "Create subgraph name" sa))).
  destruct (selectTargetNode_returns this indexNode sb)
    as (t1 & sb1 & Hsel1 & _ & _ & Hrules1 & Hoid1 & _).
  set (sc := mkState (EvUpsert (offchainIndexingRule deployment)
                        :: EvLog INFO "Successfully deployed subgraph"
                        :: trace (deploy_requested name deployment t1 sb1))
                     (upsert (offchainIndexingRule deployment) (rules sb1))
                     (nextOid sb1 + List.length (rules sb1)) (draws sb1)).
  destruct (selectTargetNode_returns this indexNode sc)
    as (t2 & sc1 & Hsel2 & _ & _ & Hrules2 & _).
  assert (E : ensure valid hashOf msgs remote random (S fuel) this name deployment indexNode depth st
              = (Throw (Err m),
                 logged ERROR "Failed to ensure subgraph deployment is indexing"
                   (logged DEBUG "Subgraph deployment assignment unchanged"
                      (emitted (EvRequest (subgraph_reassign t2 (ipfsHash deployment)))
                         (logged INFO "Reassign subgraph deployment" sc1))))).
  { cbn [ensure]. fold d. unfold bind at 1, emit at 1.
    fold (emitted (EvEnsure name (ipfsHash deployment) indexNode d) st). fold sa.
    unfold try_catch at 1. unfold bind at 1.
    rewrite (createSubgraph_succeeds name sa (Hcreate _)). fold sb.
    unfold bind at 1.
    rewrite (deploy_succeeds _ this name deployment indexNode d sb sb1 t1 Hsel1 (Hdeploy _ _));
      [| now rewrite Hrules1 | now rewrite Hoid1].
    fold sc.
    rewrite (reassign_unchanged this deployment indexNode sc sc1 t2 m Hsel2 (Hreassign _ _) Hm).
    reflexivity. }
  rewrite E. split; [reflexivity |].
  cbn [snd logged emitted rules]. rewrite Hrules2. subst sc. cbn [rules]. now rewrite Hrules1.
Qed.

(** [createSubgraph] sends one request and returns exactly when the
    answer carries no error; otherwise it raises the very error it
    received, unwrapped, whatever its message. *)
Theorem createSubgraph_outcome (name : string) (st : State) :
  requests_of (trace (snd (createSubgraph msgs remote name st)))
  = subgraph_create name :: requests_of (trace st)
  /\ fst (createSubgraph msgs remote name st)
     = match remote (requests_of (trace st)) (subgraph_create name) with
       | Responded None => Ret tt
       | Responded (Some m) | Rejected m => Throw (Err m)
       end.
Proof.
  split.
  - apply createSubgraph_run.
  - unfold createSubgraph, try_catch, bind, logger, emit, request, throw.
    cbn [trace requests_of rules nextOid draws].
    destruct (remote _ _) as [m|[m|]]; cbn [message]; try reflexivity;
      destruct (JsString.includes m "already exists"); reflexivity.
Qed.

(** [reassign] sends one request, for the selected node.  It returns
    exactly when the answer carries no error.  An error whose message
    contains "unchanged" is raised as it is; any other error is raised
    as the cause of an IE028 error. *)
Theorem reassign_outcome (this : SubgraphManager) (deployment : SubgraphDeploymentID)
    (indexNode : option string) (st st1 : State) (target : option string) :
  selectTargetNode random this indexNode st = (Ret target, st1) ->
  requests_of (trace (snd (reassign msgs remote random this deployment indexNode st)))
  = subgraph_reassign target (ipfsHash deployment) :: requests_of (trace st)
  /\ fst (reassign msgs remote random this deployment indexNode st)
     = match remote (requests_of (trace st1))
               (subgraph_reassign target (ipfsHash deployment)) with
       | Responded None => Ret tt
       | Responded (Some m) | Rejected m =>
           if JsString.includes m "unchanged" then Throw (Err m)
           else Throw (IndexerError IE028 (Err m))
       end.
Proof.
  intros Hsel. split.
  - now apply (reassign_run this deployment indexNode st st1 target).
  - unfold reassign, bind. rewrite Hsel.
    unfold try_catch, logger, emit, request, throw, ret.
    cbn [trace requests_of rules nextOid draws].
    destruct (remote _ _) as [m|[m|]]; cbn [message];
      try destruct (JsString.includes m "unchanged"); reflexivity.
Qed.

(** [deploy] returns only when its request was answered without error:
    after an error answer it ends by raising, also when the graft base
    was resolved and the retry went through.  A [deploy] that returns
    has sent its one request and entered no [ensure]. *)
Theorem deploy_returns_only_on_success
    (ensure_rec : string -> SubgraphDeploymentID -> option string -> Z -> M unit)
    (this : SubgraphManager) (name : string) (deployment : SubgraphDeploymentID)
    (indexNode : option string) (depth : Z) (st st1 st' : State) (target : option string) :
  selectTargetNode random this indexNode st = (Ret target, st1) ->
  deploy valid hashOf remote random ensure_rec this name deployment indexNode depth st = (Ret tt, st') ->
  remote (requests_of (trace st1)) (subgraph_deploy name (ipfsHash deployment) target)
    = Responded None
  /\ requests_of (trace st')
     = subgraph_deploy name (ipfsHash deployment) target :: requests_of (trace st)
  /\ ensure_calls (trace st') = ensure_calls (trace st).
Proof. apply deploy_return_inv. Qed.

(** When the endpoint answers the create, deploy and reassign requests
    of a deployment without error, and the identity constructor accepts
    every identifier of the rule table, an [ensure] with fuel returns: it
    has sent the three requests in this order, made one upsert, of the
    default rule of the deployment, and left the table with that rule
    upserted. *)
Theorem ensure_succeeds (fuel : nat) (this : SubgraphManager) (name : string)
    (deployment : SubgraphDeploymentID) (indexNode : option string) (depth : option Z)
    (st : State) :
  (forall history, remote history (subgraph_create name) = Responded None) ->
  (forall history node,
      remote history (subgraph_deploy name (ipfsHash deployment) node) = Responded None) ->
  (forall history node,
      remote history (subgraph_reassign node (ipfsHash deployment)) = Responded None) ->
  forallb valid (map identifier (rules st)) = true ->
  (oid deployment < nextOid st)%nat ->
  exists t1 t2 st',
    ensure valid hashOf msgs remote random (S fuel) this name deployment indexNode depth st
    = (Ret tt, st')
    /\ requests_of (trace st')
       = subgraph_reassign t2 (ipfsHash deployment)
           :: subgraph_deploy name (ipfsHash deployment) t1
           :: subgraph_create name
           :: requests_of (trace st)
    /\ upserts_of (trace st') = offchainIndexingRule deployment :: upserts_of (trace st)
    /\ rules st' = upsert (offchainIndexingRule deployment) (rules st).
Proof. apply ensure_run_ok. Qed.

End Properties.

(** ** The properties on concrete worlds *)

Import Scenario.
Import CommonTs.

(** *** The identities of the worlds *)

(** The constructor accepts both forms of a deployment hash, and the
    identity built from either form of [hashD] is [D]; it rejects the
    name of the global rule. *)
Lemma constructor_accepts_both_forms :
  multiHashCheck hashD = true
  /\ bytes32Check bytes32D = true
  /\ new_SubgraphDeploymentID accepts ipfsHashOf hashD (mkState [] [] 0 0)
     = (Ret D, initial [])
  /\ new_SubgraphDeploymentID accepts ipfsHashOf bytes32D (mkState [] [] 0 0)
     = (Ret D, initial [])
  /\ new_SubgraphDeploymentID accepts ipfsHashOf "global" (mkState [] [] 0 0)
     = (Throw (Err "Invalid subgraph deployment ID: global"), mkState [] [] 0 0).
Proof. repeat split; vm_compute; reflexivity. Qed.

(** *** Recursive resolution *)

Lemma deploy_graft_recursion_witness :
  0 < autoGraftResolverDepth (manager (Some 1))
  /\ accepts (graftBaseQm graftError) = true
  /\ ipfsHashOf (graftBaseQm graftError) = hashB
  /\ let run := run_deploy (remote_graft 1) random_zero 3 (manager (Some 1)) [] in
     let st2 := resolving "n" D (Some "nodeA") (drawn (initial [])) in
     exists st3 r2 st4 evs,
       ensure accepts ipfsHashOf messages (remote_graft 1) random_zero 3 (manager (Some 1)) "n"
         (mkSubgraphDeploymentID 1 (ipfsHashOf (graftBaseQm graftError))) (Some "nodeA") (Some (0 + 1)) st2
       = (Ret tt, st3)
       /\ ensure accepts ipfsHashOf messages (remote_graft 1) random_zero 3 (manager (Some 1)) "n"
            D (Some "nodeA") (Some 0) st3 = (r2, st4)
       /\ snd run = match r2 with OutOfFuel => st4 | _ => deploy_failed st4 end
       /\ trace st4
          = (evs ++ EvRequest (subgraph_create "n")
                 :: EvLog INFO "Create subgraph name"
                 :: EvEnsure "n" (ipfsHash D) (Some "nodeA") 0
                 :: trace st3)%list.
Proof.
  split; [reflexivity |]. split; [reflexivity |]. split; [vm_compute; reflexivity |].
  intros run st2.
  destruct (deploy_graft_recursion accepts ipfsHashOf messages (remote_graft 1) random_zero 3
              (manager (Some 1)) "n" D None 0 (initial []) (drawn (initial []))
              (Some "nodeA") graftError eq_refl eq_refl eq_refl eq_refl eq_refl)
    as (_ & _ & r1 & st3 & E1 & H).
  assert (Hr : fst (ensure accepts ipfsHashOf messages (remote_graft 1) random_zero 3 (manager (Some 1)) "n"
                      (mkSubgraphDeploymentID 1 (ipfsHashOf (graftBaseQm graftError))) (Some "nodeA")
                      (Some (0 + 1)) st2) = Ret tt) by (vm_compute; reflexivity).
  change (nextOid (drawn (initial []))) with 1%nat in E1.
  fold st2 in E1. rewrite E1 in Hr. cbn [fst] in Hr. subst r1.
  destruct H as (r2 & st4 & E2 & Hs & Hev).
  destruct (Hev ltac:(discriminate)) as [evs Hevs].
  exists st3, r2, st4, evs. repeat split; assumption.
Defined.

(** The deployment is the identity the constructor builds from [hashD];
    the failure names [hashB], which is also the hash of the identity
    built from it.  The retry is not a lone deploy request: after the
    graft base is ensured, the original deployment goes through
    [subgraph_create], [subgraph_deploy] and [subgraph_reassign] again.
    And when the retry meets the graft-base failure once more, the graft
    base is ensured a second time at depth 1. *)
Lemma deploy_retry_is_a_whole_ensure :
  new_SubgraphDeploymentID accepts ipfsHashOf hashD (mkState [] [] 0 0)
  = (Ret D, initial [])
  /\ graftBaseQm graftError = hashB
  /\ ipfsHashOf hashB = hashB
  /\ rev (requests_of (trace (snd (run_deploy (remote_graft 1) random_zero 3 (manager (Some 1)) []))))
  = [subgraph_deploy "n" hashD (Some "nodeA");
     subgraph_create "n";
     subgraph_deploy "n" hashB (Some "nodeA");
     subgraph_reassign (Some "nodeA") hashB;
     subgraph_create "n";
     subgraph_deploy "n" hashD (Some "nodeA");
     subgraph_reassign (Some "nodeA") hashD]
  /\ rev (ensure_calls
            (trace (snd (run_deploy (remote_graft 2) random_zero 5 (manager (Some 1)) []))))
     = [("n", hashB, Some "nodeA", 1);
        ("n", hashD, Some "nodeA", 0);
        ("n", hashB, Some "nodeA", 1);
        ("n", hashD, Some "nodeA", 0)].
Proof. repeat split; vm_compute; reflexivity. Qed.

Lemma deploy_graft_retry_outcome_witness :
  let run := run_deploy (remote_graft 1) random_zero 3 (manager (Some 1)) [] in
  exists st4,
    fst run = Throw (IndexerError IE026 (IndexerError IE069 (Err graftError)))
    /\ snd run = deploy_failed st4.
Proof.
  intros run.
  pose (st3 := snd (ensure accepts ipfsHashOf messages (remote_graft 1) random_zero 3 (manager (Some 1)) "n"
                      (mkSubgraphDeploymentID 1 (ipfsHashOf (graftBaseQm graftError))) (Some "nodeA")
                      (Some (0 + 1)) (resolving "n" D (Some "nodeA") (drawn (initial []))))).
  pose (st4 := snd (ensure accepts ipfsHashOf messages (remote_graft 1) random_zero 3 (manager (Some 1)) "n"
                      D (Some "nodeA") (Some 0) st3)).
  exists st4.
  assert (H3 : ensure accepts ipfsHashOf messages (remote_graft 1) random_zero 3 (manager (Some 1)) "n"
                 (mkSubgraphDeploymentID (nextOid (drawn (initial []))) (ipfsHashOf (graftBaseQm graftError)))
                 (Some "nodeA") (Some (0 + 1)) (resolving "n" D (Some "nodeA") (drawn (initial [])))
               = (Ret tt, st3)) by (vm_compute; reflexivity).
  assert (H4 : ensure accepts ipfsHashOf messages (remote_graft 1) random_zero 3 (manager (Some 1)) "n"
                 D (Some "nodeA") (Some 0) st3 = (Ret tt, st4)) by (vm_compute; reflexivity).
  pose proof (proj1
    (deploy_graft_retry_outcome accepts ipfsHashOf messages (remote_graft 1) random_zero 3
       (manager (Some 1)) "n" D None 0 (initial []) (drawn (initial [])) st3
       (Some "nodeA") graftError eq_refl eq_refl eq_refl eq_refl eq_refl H3)
    st4 H4) as H.
  unfold run, run_deploy. rewrite H. split; reflexivity.
Defined.

(** The deployment is the identity the constructor builds from [hashD];
    the first failure names [hashB], which is also the hash of the
    identity built from it.  The graft base is ensured, the retry fails
    for another reason: what [deploy] raises carries no IE069 error
    anywhere. *)
Lemma deploy_retry_failure_hides_graft_retry :
  let run := run_deploy remote_graft_then_fail random_zero 3 (manager (Some 1)) [] in
  new_SubgraphDeploymentID accepts ipfsHashOf hashD (mkState [] [] 0 0)
  = (Ret D, initial [])
  /\ graftBaseQm graftError = hashB
  /\ ipfsHashOf hashB = hashB
  /\ fst run
  = Throw (IndexerError IE026 (IndexerError IE026 (IndexerError IE026
             (Err "deployment failed: store unavailable"))))
  /\ (forall e, fst run = Throw e -> mentions IE069 e = false)
  /\ rev (requests_of (trace (snd run)))
     = [subgraph_deploy "n" hashD (Some "nodeA");
        subgraph_create "n";
        subgraph_deploy "n" hashB (Some "nodeA");
        subgraph_reassign (Some "nodeA") hashB;
        subgraph_create "n";
        subgraph_deploy "n" hashD (Some "nodeA")]
  /\ rules (snd run) = [mkIndexingRule hashB DEPLOYMENT OFFCHAIN].
Proof.
  assert (E : fst (run_deploy remote_graft_then_fail random_zero 3 (manager (Some 1)) [])
              = Throw (IndexerError IE026 (IndexerError IE026 (IndexerError IE026
                         (Err "deployment failed: store unavailable")))))
    by (vm_compute; reflexivity).
  cbv zeta. do 3 (split; [vm_compute; reflexivity |]).
  split; [exact E |]. split.
  - intros e He. rewrite E in He. injection He as <-. reflexivity.
  - split; vm_compute; reflexivity.
Qed.

(** *** The graft resolver *)

Lemma graftBase_depth_ceiling_witness :
  JsString.includes graftError graftSignature = true
  /\ graftBase accepts ipfsHashOf (manager None) graftError 0 (initial [])
     = (Ret None,
        logged WARN "Grafting depth for deployment reached auto-graft-resolver-depth limit"
          (initial []))
  /\ autoGraftResolverDepth (new_SubgraphManager "http://127.0.0.1:8020" pool None) = 0
  /\ exists st',
      deploy accepts ipfsHashOf (remote_graft 1) random_zero (fun _ _ _ _ => ret tt)
        (new_SubgraphManager "http://127.0.0.1:8020" pool None) "n" D None 0 (initial [])
      = (Throw (IndexerError IE026 (IndexerError IE026 (Err graftError))), st')
      /\ ensure_calls (trace st') = ensure_calls (trace (initial []))
      /\ requests_of (trace st')
         = subgraph_deploy "n" (ipfsHash D) (Some "nodeA") :: requests_of (trace (initial [])).
Proof.
  pose proof (graftBase_depth_ceiling accepts ipfsHashOf (remote_graft 1) random_zero graftError eq_refl)
    as [Hresolver Hdeploy].
  split; [reflexivity |]. split.
  - apply Hresolver. cbn. lia.
  - exact (Hdeploy "http://127.0.0.1:8020" pool (fun _ _ _ _ => ret tt) "n" D None
             (initial []) (drawn (initial [])) (Some "nodeA") eq_refl eq_refl).
Defined.

(** C7, as the code has it: let the message carry the signature and,
    after it, a token of the Qm form (46 characters of the base58
    alphabet, "Qm" first) that holds the first "Qm" of the message.
    The token [graftBase] cuts out is exactly that substring.  At the
    depth ceiling no identity is returned.  Below it the identity
    returned is the one the constructor of [SubgraphDeploymentID] builds
    from the token: its [ipfsHash] is the token re-encoded, which is the
    token itself exactly when the token decodes to the bytes 0x12 0x20
    followed by 32 more. *)
Theorem graftBase_extracts_token (this : SubgraphManager) (before between tok post : string)
    (depth : Z) (st : State) :
  let pre := before ++ graftSignature ++ between in
  let msg := pre ++ tok ++ post in
  (forall a b, pre <> a ++ "Qm" ++ b) ->
  multiHashCheck tok = true ->
  graftBaseQm msg = tok
  /\ (autoGraftResolverDepth this <= depth ->
      fst (graftBase accepts ipfsHashOf this msg depth st) = Ret None)
  /\ (depth < autoGraftResolverDepth this ->
      exists d,
        graftBase accepts ipfsHashOf this msg depth st
        = (Ret (Some d), allocated st)
        /\ oid d = nextOid st
        /\ ipfsHash d = ipfsHashOf tok
        /\ (ipfsHash d = tok <-> canonical tok = true)).
Proof.
  intros pre msg Hfirst Htok.
  assert (Hsig : JsString.includes msg graftSignature = true).
  { unfold msg, pre. rewrite !append_assoc. apply includes_occurrence. }
  assert (Hparts : String.length tok = 46%nat /\ prefix "Qm" tok = true).
  { unfold multiHashCheck in Htok.
    apply andb_prop in Htok as [Htok _]. apply andb_prop in Htok as [Hlen Hp].
    split; [now apply Nat.eqb_eq | exact Hp]. }
  destruct Hparts as [Hlen Hp].
  assert (Hidx : JsString.indexOf msg "Qm" = Z.of_nat (String.length pre)).
  { unfold JsString.indexOf, msg. rewrite indexOf_from_first_Qm.
    - lia.
    - destruct (prefix_Qm tok Hp) as [t ->]. exact (prefix_app "Qm" (t ++ post)).
    - exact Hfirst. }
  assert (E : graftBaseQm msg = tok).
  { unfold graftBaseQm. rewrite Hidx.
    replace 46 with (Z.of_nat (String.length tok)) by (rewrite Hlen; reflexivity).
    apply js_substring_token. }
  split; [exact E |]. split.
  - intros Hd. now rewrite graftBase_at_ceiling.
  - intros Hd. eexists.
    rewrite (graftBase_below_ceiling accepts ipfsHashOf this msg depth st Hsig Hd).
    rewrite E. unfold accepts. rewrite Htok. cbn [orb].
    split; [reflexivity |]. split; [reflexivity |]. split; [reflexivity |].
    cbn [ipfsHash]. now apply ipfsHashOf_fixed.
Qed.

Lemma graftBase_extracts_token_witness :
  (forall a b, "" ++ graftSignature ++ ": " <> a ++ "Qm" ++ b)
  /\ multiHashCheck hashB = true
  /\ graftBaseQm graftError = hashB
  /\ fst (graftBase accepts ipfsHashOf (manager (Some 1)) graftError 1
            (initial [])) = Ret None
  /\ exists d,
      graftBase accepts ipfsHashOf (manager (Some 1)) graftError 0 (initial [])
      = (Ret (Some d), allocated (initial []))
      /\ oid d = 1%nat
      /\ canonical hashB = true
      /\ ipfsHash d = hashB.
Proof.
  assert (Hfirst : forall a b, "" ++ graftSignature ++ ": " <> a ++ "Qm" ++ b)
    by (apply absent_no_occurrence; reflexivity).
  assert (Htok : multiHashCheck hashB = true) by reflexivity.
  split; [exact Hfirst |]. split; [exact Htok |].
  destruct (graftBase_extracts_token (manager (Some 1)) "" ": " hashB "]" 1 (initial [])
              Hfirst Htok) as (Htoken & Hceiling & _).
  destruct (graftBase_extracts_token (manager (Some 1)) "" ": " hashB "]" 0 (initial [])
              Hfirst Htok) as (_ & _ & Hidentity).
  split; [exact Htoken |]. split; [apply Hceiling; cbn; lia |].
  destruct (Hidentity eq_refl) as (d & Hrun & Hoid & _ & Hcanonical).
  exists d. split; [exact Hrun |]. split; [exact Hoid |]. split; [reflexivity |].
  apply Hcanonical. reflexivity.
Defined.

(** A token of the Qm form that is the hash of no deployment: the
    constructor accepts it, and the identity [graftBase] returns carries
    another hash than the substring cut out of the message.  And with a
    token that is a deployment hash, at the depth ceiling the substring
    is cut out and no identity is returned. *)
Lemma graftBase_identity_is_reencoded :
  let msg := graftSignature ++ ": " ++ tokenB ++ "]" in
  multiHashCheck tokenB = true
  /\ JsString.includes msg graftSignature = true
  /\ JsString.indexOf msg "Qm" = Z.of_nat (String.length (graftSignature ++ ": "))
  /\ graftBaseQm msg = tokenB
  /\ graftBase accepts ipfsHashOf (manager (Some 1)) msg 0 (initial [])
     = (Ret (Some (mkSubgraphDeploymentID 1 hashB)), allocated (initial []))
  /\ ipfsHash (mkSubgraphDeploymentID 1 hashB) <> graftBaseQm msg
  /\ graftBaseQm graftError = hashB
  /\ graftBase accepts ipfsHashOf (manager (Some 1)) graftError 1 (initial [])
     = (Ret None,
        logged WARN "Grafting depth for deployment reached auto-graft-resolver-depth limit"
          (initial [])).
Proof.
  cbv zeta. repeat split; try (vm_compute; reflexivity). vm_compute. discriminate.
Qed.

Lemma graftBase_rejected_token_witness :
  accepts (graftBaseQm truncatedGraftError) = false
  /\ graftBaseQm truncatedGraftError = JsString.substring truncatedGraftError 0 45
  /\ fst (graftBase accepts ipfsHashOf (manager (Some 1)) truncatedGraftError 1 (initial [])) = Ret None
  /\ graftBase accepts ipfsHashOf (manager (Some 1)) truncatedGraftError 0 (initial [])
     = (Throw (Err ("Invalid subgraph deployment ID: " ++ graftBaseQm truncatedGraftError)),
        initial [])
  /\ deploy accepts ipfsHashOf remote_truncated random_zero (fun _ _ _ _ => ret tt) (manager (Some 1)) "n"
       D None 0 (initial [])
     = (Throw (IndexerError IE026
                 (Err ("Invalid subgraph deployment ID: " ++ graftBaseQm truncatedGraftError))),
        deploy_failed (deploy_requested "n" D (Some "nodeA") (drawn (initial [])))).
Proof.
  split; [reflexivity |].
  destruct (graftBase_rejected_token accepts ipfsHashOf remote_truncated random_zero (manager (Some 1))
              truncatedGraftError 0 (initial []) eq_refl eq_refl)
    as (Hhead & _ & Hbelow).
  destruct (graftBase_rejected_token accepts ipfsHashOf remote_truncated random_zero (manager (Some 1))
              truncatedGraftError 1 (initial []) eq_refl eq_refl)
    as (_ & Hceiling & _).
  split; [exact (Hhead eq_refl) |].
  split; [apply Hceiling; cbn; lia |].
  destruct (Hbelow eq_refl) as [Hthrows Hdeploy].
  split; [exact Hthrows |].
  exact (Hdeploy (fun _ _ _ _ => ret tt) "n" D None (initial []) (drawn (initial []))
           (Some "nodeA") eq_refl eq_refl).
Defined.

(** Below the depth ceiling, a graft-base message without a hash, or
    with a hash cut short, makes [graftBase] throw when the identity
    constructor checks its argument, and return an identity built from
    the fragment when it does not: in neither case [undefined]. *)
Lemma graftBase_malformed_token_is_not_absent :
  JsString.includes truncatedGraftError graftSignature = true
  /\ JsString.indexOf truncatedGraftError "Qm" = -1
  /\ graftBase accepts ipfsHashOf (manager (Some 1)) truncatedGraftError 0 (initial [])
     = (Throw (Err "Invalid subgraph deployment ID: subgraph validation error: [the graft base is"),
        initial [])
  /\ graftBase accepts ipfsHashOf (manager (Some 1)) shortGraftError 0 (initial [])
     = (Throw (Err "Invalid subgraph deployment ID: QmBBBBBBBB"), initial [])
  /\ graftBase anyString asGiven (manager (Some 1)) shortGraftError 0 (initial [])
     = (Ret (Some (mkSubgraphDeploymentID 1 "QmBBBBBBBB")), allocated (initial []))
  /\ fst (graftBase accepts ipfsHashOf (manager (Some 1)) truncatedGraftError 0 (initial [])) <> Ret None
  /\ fst (graftBase accepts ipfsHashOf (manager (Some 1)) shortGraftError 0 (initial [])) <> Ret None
  /\ fst (graftBase anyString asGiven (manager (Some 1)) shortGraftError 0 (initial [])) <> Ret None.
Proof.
  repeat split; try (vm_compute; reflexivity); vm_compute; discriminate.
Qed.

(** *** Node selection *)

Lemma node_selection_witness :
  (0 <= random_zero (draws (initial [])))%Q
  /\ (random_zero (draws (initial [])) < 1)%Q
  /\ (exists node,
        selectTargetNode random_zero (manager None) None (initial [])
        = (Ret (Some node), drawn (initial []))
        /\ In node ["nodeA"; "nodeB"])
  /\ selectTargetNode random_zero (manager None) (Some "nodeC") (initial [])
     = (Ret (Some "nodeC"),
        logged WARN "Specified deployment target node not present in indexNodeIDs supplied at startup, proceeding with deploy to target node anyway."
          (initial []))
  /\ selectTargetNode random_zero manager_without_nodes None (initial [])
     = (Ret None, drawn (initial [])).
Proof.
  assert (H0 : (0 <= random_zero (draws (initial [])))%Q) by (vm_compute; discriminate).
  assert (H1 : (random_zero (draws (initial [])) < 1)%Q) by reflexivity.
  split; [exact H0 |]. split; [exact H1 |].
  destruct (node_selection random_zero (manager None) (initial []))
    as (Hexplicit & Hpool & _).
  destruct (node_selection random_zero manager_without_nodes (initial []))
    as (_ & _ & Hempty).
  split; [| split].
  - apply Hpool; [left; reflexivity | discriminate | exact H0 | exact H1].
  - exact (Hexplicit "n"%char "odeC").
  - apply Hempty; [left; reflexivity | reflexivity].
Defined.

(** With no index nodes configured and no explicit node, node selection
    raises nothing: the target node is [undefined], the requests go out
    without a node, and [ensure] returns. *)
Lemma selection_from_empty_pool_does_not_fail :
  indexNodeIDs manager_without_nodes = []
  /\ selectTargetNode random_zero manager_without_nodes None (initial [])
     = (Ret None, drawn (initial []))
  /\ fst (run_ensure remote_ok random_zero 1 manager_without_nodes []) = Ret tt
  /\ rev (requests_of (trace (snd (run_ensure remote_ok random_zero 1 manager_without_nodes []))))
     = [subgraph_create "n";
        subgraph_deploy "n" hashD None;
        subgraph_reassign None hashD].
Proof. repeat split; vm_compute; reflexivity. Qed.

(** *** The node used by the steps of [ensure] *)


(** *** The rule synchroniser *)

(** C3: the deployment is the identity the constructor builds from
    [hashD], and [hashD] is its [ipfsHash].  On an empty rule table a
    successful [ensure] upserts, once, the default rule of the
    deployment (DEPLOYMENT, OFFCHAIN), and the table then holds exactly
    that record.  On a table that already holds a rule for the
    deployment, with the decision NEVER, the same call upserts the
    default rule all the same: no record is added, but the existing one
    now reads OFFCHAIN.  The guard [!indexingRules.includes(deployment)]
    compares the deployment with objects built a moment before, so it
    never finds it. *)
Theorem ensure_overwrites_existing_rule :
  let existing := [mkIndexingRule hashD DEPLOYMENT NEVER] in
  let fresh_run := run_ensure remote_ok random_zero 1 (manager None) [] in
  let second_run := run_ensure remote_ok random_zero 1 (manager None) existing in
  new_SubgraphDeploymentID accepts ipfsHashOf hashD (mkState [] [] 0 0)
  = (Ret D, initial [])
  /\ map identifier existing = [ipfsHash D]
  /\ fst fresh_run = Ret tt
  /\ upserts_of (trace (snd fresh_run)) = [mkIndexingRule hashD DEPLOYMENT OFFCHAIN]
  /\ rules (snd fresh_run) = [mkIndexingRule hashD DEPLOYMENT OFFCHAIN]
  /\ fst second_run = Ret tt
  /\ upserts_of (trace (snd second_run)) = [mkIndexingRule hashD DEPLOYMENT OFFCHAIN]
  /\ rules (snd second_run) = [mkIndexingRule hashD DEPLOYMENT OFFCHAIN]
  /\ rules (snd second_run) <> existing.
Proof. repeat split; try (vm_compute; reflexivity). vm_compute. discriminate. Qed.

(** *** Registration of the name *)

(** C4: when the endpoint answers [subgraph_create] with an error whose
    message contains "already exists", [createSubgraph] raises that
    error, and [ensure] raises it in turn after the one request: the
    deploy step is not reached. *)
Theorem createSubgraph_raises_already_exists :
  JsString.includes "subgraph name already exists: indexer-agent/D" "already exists" = true
  /\ createSubgraph messages remote_exists "n" (initial [])
     = (Throw (Err "subgraph name already exists: indexer-agent/D"),
        logged DEBUG "Subgraph name already exists"
          (emitted (EvRequest (subgraph_create "n"))
             (logged INFO "Create subgraph name" (initial []))))
  /\ fst (run_ensure remote_exists random_zero 1 (manager None) [])
     = Throw (Err "subgraph name already exists: indexer-agent/D")
  /\ requests_of (trace (snd (run_ensure remote_exists random_zero 1 (manager None) [])))
     = [subgraph_create "n"].
Proof. repeat split; vm_compute; reflexivity. Qed.

(** *** The error [ensure] raises *)

(** C5: [ensure] builds the IE020 error for its log line and then raises
    the error it caught.  With the endpoint down, the caller receives the
    bare transport error; with a deploy failure, the IE026 error of
    [deploy].  Neither carries IE020. *)
Theorem ensure_raises_the_caught_error :
  fst (run_ensure remote_down random_zero 1 (manager None) [])
  = Throw (Err "connect ECONNREFUSED 127.0.0.1:8020")
  /\ category (Err "connect ECONNREFUSED 127.0.0.1:8020") = None
  /\ fst (run_ensure (remote_graft 1) random_zero 1 (manager None) [])
     = Throw (IndexerError IE026 (IndexerError IE026 (Err graftError)))
  /\ mentions IE020 (IndexerError IE026 (IndexerError IE026 (Err graftError))) = false
  /\ trace (snd (run_ensure remote_down random_zero 1 (manager None) []))
     = [EvLog ERROR "Failed to ensure subgraph deployment is indexing";
        EvRequest (subgraph_create "n");
        EvLog INFO "Create subgraph name";
        EvEnsure "n" hashD None 0].
Proof. repeat split; vm_compute; reflexivity. Qed.

(** *** Teardown *)

Lemma remove_deletes_rules_of_deployment_witness :
  let kept := mkIndexingRule hashB DEPLOYMENT NEVER in
  let st := initial table_with_deployment in
  remote_ok (requests_of (trace st)) (subgraph_reassign (Some "removed") (ipfsHash D))
  = Responded None
  /\ (In kept (rules (snd (remove remote_ok D st)))
      <-> In kept (rules st) /\ identifier kept <> ipfsHash D)
  /\ findOne (ipfsHash D) (snd (remove remote_ok D st))
     = (Ret None, snd (remove remote_ok D st)).
Proof.
  intros kept st. split; [reflexivity |].
  exact (remove_deletes_rules_of_deployment remote_ok D st kept eq_refl).
Defined.

Lemma remove_failure_keeps_rules_witness :
  remote_down [] (subgraph_reassign (Some "removed") (ipfsHash D)) <> Responded None
  /\ rules (snd (remove remote_down D (initial table_with_deployment)))
     = table_with_deployment.
Proof.
  assert (H : remote_down (requests_of (trace (initial table_with_deployment)))
                (subgraph_reassign (Some "removed") (ipfsHash D)) <> Responded None)
    by (cbn; discriminate).
  split; [exact H |].
  exact (remove_failure_keeps_rules remote_down D (initial table_with_deployment) H).
Defined.

(** *** Outcomes of the steps *)

Lemma reassign_outcome_witness :
  requests_of (trace (snd (reassign messages remote_unchanged random_zero (manager None) D None
                             (initial []))))
  = [subgraph_reassign (Some "nodeA") hashD]
  /\ fst (reassign messages remote_unchanged random_zero (manager None) D None (initial []))
     = Throw (Err "deployment assignment unchanged").
Proof.
  exact (reassign_outcome messages remote_unchanged random_zero (manager None) D None
           (initial []) (drawn (initial [])) (Some "nodeA") eq_refl).
Defined.

Lemma deploy_raises_only_IE026_witness :
  fst (run_deploy remote_down random_zero 1 (manager None) [])
  = Throw (IndexerError IE026 (Err "connect ECONNREFUSED 127.0.0.1:8020"))
  /\ category (IndexerError IE026 (Err "connect ECONNREFUSED 127.0.0.1:8020")) = Some IE026.
Proof.
  assert (H : fst (run_deploy remote_down random_zero 1 (manager None) [])
              = Throw (IndexerError IE026 (Err "connect ECONNREFUSED 127.0.0.1:8020")))
    by (vm_compute; reflexivity).
  split; [exact H |].
  exact (deploy_raises_only_IE026 accepts ipfsHashOf remote_down random_zero
           (fun n d i k => ensure accepts ipfsHashOf messages remote_down random_zero 1 (manager None)
                             n d i (Some k))
           (manager None) "n" D None 0 (initial []) _ H).
Defined.

Lemma deploy_fails_without_resolution_witness :
  deploy accepts ipfsHashOf remote_down random_zero (fun _ _ _ _ => ret tt) (manager (Some 1)) "n" D None 0
    (initial [])
  = (Throw (IndexerError IE026 (Err "connect ECONNREFUSED 127.0.0.1:8020")),
     deploy_failed (deploy_requested "n" D (Some "nodeA") (drawn (initial []))))
  /\ JsString.includes "deployment failed: store unavailable" graftSignature = false
  /\ deploy accepts ipfsHashOf remote_store_unavailable random_zero (fun _ _ _ _ => ret tt)
       (manager (Some 1)) "n" D None 0 (initial [])
     = (Throw (IndexerError IE026 (IndexerError IE026
                 (Err "deployment failed: store unavailable"))),
        deploy_failed (deploy_requested "n" D (Some "nodeA") (drawn (initial [])))).
Proof.
  split; [| split; [reflexivity |]].
  - exact (proj1 (deploy_fails_without_resolution accepts ipfsHashOf remote_down random_zero
                    (fun _ _ _ _ => ret tt) (manager (Some 1)) "n" D None 0
                    (initial []) (drawn (initial [])) (Some "nodeA") eq_refl)
             _ eq_refl).
  - exact (proj2 (deploy_fails_without_resolution accepts ipfsHashOf remote_store_unavailable random_zero
                    (fun _ _ _ _ => ret tt) (manager (Some 1)) "n" D None 0
                    (initial []) (drawn (initial [])) (Some "nodeA") eq_refl)
             _ eq_refl eq_refl).
Defined.

Lemma deploy_returns_only_on_success_witness :
  let st' := snd (run_deploy remote_ok random_zero 1 (manager None) []) in
  fst (run_deploy remote_ok random_zero 1 (manager None) []) = Ret tt
  /\ remote_ok (requests_of (trace (drawn (initial []))))
       (subgraph_deploy "n" (ipfsHash D) (Some "nodeA")) = Responded None
  /\ requests_of (trace st') = [subgraph_deploy "n" hashD (Some "nodeA")]
  /\ ensure_calls (trace st') = [].
Proof.
  intros st'.
  assert (H : run_deploy remote_ok random_zero 1 (manager None) [] = (Ret tt, st'))
    by (vm_compute; reflexivity).
  split; [now rewrite H |].
  exact (deploy_returns_only_on_success accepts ipfsHashOf remote_ok random_zero
           (fun n d i k => ensure accepts ipfsHashOf messages remote_ok random_zero 1 (manager None)
                             n d i (Some k))
           (manager None) "n" D None 0 (initial []) (drawn (initial [])) st' (Some "nodeA")
           eq_refl H).
Defined.

Lemma deploy_fails_on_unparseable_rule_witness :
  forallb accepts (map identifier table_with_global) = false
  /\ exists st',
      deploy accepts ipfsHashOf remote_ok random_zero (fun _ _ _ _ => ret tt) (manager None) "n" D None 0
        (initial table_with_global)
      = (Throw (IndexerError IE026 (Err "Invalid subgraph deployment ID: global")), st')
      /\ rules st' = table_with_global
      /\ upserts_of (trace st') = [].
Proof.
  split; [reflexivity |].
  destruct (deploy_fails_on_unparseable_rule accepts ipfsHashOf remote_ok random_zero
              (fun _ _ _ _ => ret tt) (manager None) "n" D None 0
              (initial table_with_global) (drawn (initial table_with_global)) (Some "nodeA")
              eq_refl eq_refl eq_refl)
    as (r & st' & Hfind & Hrun & Hrules & Hupserts & _).
  vm_compute in Hfind. injection Hfind as <-.
  exists st'. split; [exact Hrun |]. split; [exact Hrules | exact Hupserts].
Defined.

(** *** Outcomes of [ensure] *)

Lemma ensure_raises_one_of_witness :
  let e := IndexerError IE026 (IndexerError IE026 (Err "deployment failed: store unavailable")) in
  fst (run_ensure remote_store_unavailable random_zero 1 (manager None) []) = Throw e
  /\ ((exists m, e = Err m) \/ category e = Some IE026 \/ category e = Some IE028).
Proof.
  intros e.
  assert (H : fst (run_ensure remote_store_unavailable random_zero 1 (manager None) [])
              = Throw e) by (vm_compute; reflexivity).
  split; [exact H |].
  exact (ensure_raises_one_of accepts ipfsHashOf messages remote_store_unavailable random_zero 1
           (manager None) "n" D None None (initial []) e H).
Defined.

Lemma ensure_returns_without_resolution_witness :
  exists st' t1 t2,
    ensure accepts ipfsHashOf messages remote_ok random_alternating 1 (manager None) "n" D None None
      (initial []) = (Ret tt, st')
    /\ requests_of (trace st')
       = [subgraph_reassign t2 hashD; subgraph_deploy "n" hashD t1; subgraph_create "n"]
    /\ ensure_calls (trace st') = [("n", hashD, None, 0)].
Proof.
  assert (Hr : fst (ensure accepts ipfsHashOf messages remote_ok random_alternating 1 (manager None) "n" D None None
      (initial [])) = Ret tt)
    by (vm_compute; reflexivity).
  destruct (ensure accepts ipfsHashOf messages remote_ok random_alternating 1 (manager None) "n" D None None
      (initial [])) as [r st'] eqn:H.
  cbn [fst] in Hr. subst r.
  destruct (ensure_returns_without_resolution accepts ipfsHashOf messages remote_ok random_alternating 1
              (manager None) "n" D None None (initial []) st' H) as (t1 & t2 & H1 & H2).
  exists st', t1, t2. split; [reflexivity |]. split; [exact H1 | exact H2].
Defined.

Lemma ensure_succeeds_witness :
  forallb accepts (map identifier table_with_deployment) = true
  /\ exists t1 t2 st',
      ensure accepts ipfsHashOf messages remote_ok random_zero 1 (manager None) "n" D None None
        (initial table_with_deployment)
      = (Ret tt, st')
      /\ requests_of (trace st')
         = [subgraph_reassign t2 hashD; subgraph_deploy "n" hashD t1; subgraph_create "n"]
      /\ upserts_of (trace st') = [offchainIndexingRule D]
      /\ rules st' = upsert (offchainIndexingRule D) table_with_deployment.
Proof.
  split; [reflexivity |].
  apply (ensure_succeeds accepts ipfsHashOf messages remote_ok random_zero 0 (manager None) "n" D None None
           (initial table_with_deployment));
    [reflexivity | reflexivity | reflexivity | reflexivity | cbn; lia].
Defined.

Lemma ensure_then_remove_witness :
  let table := [mkIndexingRule hashB DEPLOYMENT ALWAYS] in
  find (fun r => String.eqb (identifier r) (ipfsHash D)) table = None
  /\ rules (snd (remove remote_ok D
                   (snd (ensure accepts ipfsHashOf messages remote_ok random_zero 1 (manager None) "n" D
                           None None (initial table)))))
     = table.
Proof.
  intros table. split; [reflexivity |].
  assert (Hd : (oid D < nextOid (initial table))%nat) by (cbn; lia).
  destruct (ensure_then_remove accepts ipfsHashOf messages remote_ok random_zero 0 (manager None) "n" D
              None None (initial table) (fun _ _ => eq_refl) eq_refl Hd) as [_ H].
  exact (H eq_refl).
Defined.

Lemma ensure_raises_unchanged_witness :
  JsString.includes "deployment assignment unchanged" "unchanged" = true
  /\ fst (run_ensure remote_unchanged random_zero 1 (manager None) [])
     = Throw (Err "deployment assignment unchanged")
  /\ rules (snd (run_ensure remote_unchanged random_zero 1 (manager None) []))
     = [mkIndexingRule hashD DEPLOYMENT OFFCHAIN].
Proof.
  split; [reflexivity |].
  assert (Hd : (oid D < nextOid (initial []))%nat) by (cbn; lia).
  exact (ensure_raises_unchanged accepts ipfsHashOf messages remote_unchanged random_zero 0 (manager None)
           "n" D None None (initial []) "deployment assignment unchanged"
           (fun _ => eq_refl) (fun _ _ => eq_refl) (fun _ _ => eq_refl) eq_refl eq_refl Hd).
Defined.

Lemma ensure_retry_never_ends_witness :
  0 < autoGraftResolverDepth (manager (Some 1))
  /\ ipfsHashOf (graftBaseQm graftError) = hashB
  /\ accepts hashB = true
  /\ fst (ensure accepts ipfsHashOf messages remote_graft_forever random_zero 25
            (manager (Some 1)) "n" D None (Some 0) (initial []))
     = OutOfFuel.
Proof.
  assert (HB : ipfsHashOf (graftBaseQm graftError) = hashB) by (vm_compute; reflexivity).
  split; [reflexivity |]. split; [exact HB |]. split; [reflexivity |].
  apply (ensure_retry_never_ends accepts ipfsHashOf messages
           remote_graft_forever random_zero (manager (Some 1)) "n" D graftError);
    try rewrite HB; try reflexivity.
Defined.

(** *** The extracted token *)

Lemma graftBaseQm_starts_with_prefix_witness :
  JsString.indexOf shortGraftError "Qm" <> -1
  /\ graftBaseQm shortGraftError = "QmBBBBBBBB"
  /\ prefix "Qm" (graftBaseQm shortGraftError) = true.
Proof.
  assert (H : JsString.indexOf shortGraftError "Qm" <> -1) by (vm_compute; discriminate).
  split; [exact H |]. split; [reflexivity |].
  exact (graftBaseQm_starts_with_prefix shortGraftError H).
Defined.
